(** * The response-acquisition layer of the tutoring chat client

    A shallow embedding of [src/services/geminiService.ts] (with the data
    types of [src/types.ts]): the translation of the message history to the
    provider's content shape, the model and budget selection, the retry loop
    with its downgrade and backoff, and the rendering of a provider response
    into one display string.

    JavaScript strings are modelled as [string] (sequences of bytes, UTF-8
    for the text outside ASCII).  The numbers of the source are [nat] for the
    attempt counter, [Z] for the reasoning budget and [Q] for the delay, which
    the source multiplies by 1.5. *)

From Stdlib Require Import List String Ascii Bool Arith ZArith QArith Lia.
Import ListNotations.
Open Scope string_scope.

(** ** JavaScript string helpers *)

Module JS.

(** A string is falsy exactly when it is empty. *)
Definition truthy (s : string) : bool :=
  match s with EmptyString => false | String _ _ => true end.

(** [o || d] for an optional string [o]: [undefined] and [''] are falsy. *)
Definition orElse (o : option string) (d : string) : string :=
  match o with
  | Some s => if truthy s then s else d
  | None => d
  end.

Definition lowerAscii (c : ascii) : ascii :=
  let n := nat_of_ascii c in
  if (65 <=? n)%nat && (n <=? 90)%nat then ascii_of_nat (n + 32) else c.

(** [s.toLowerCase()], on the letters A to Z; bytes outside ASCII are kept.
    The source searches the result for ASCII keywords only. *)
Fixpoint toLowerCase (s : string) : string :=
  match s with
  | EmptyString => EmptyString
  | String c t => String (lowerAscii c) (toLowerCase t)
  end.

(** [s.includes(needle)] *)
Fixpoint includes (needle s : string) : bool :=
  String.prefix needle s ||
  match s with
  | EmptyString => false
  | String _ t => includes needle t
  end.

Definition nl : string := String (ascii_of_nat 10) EmptyString.

(** [lines.join("\n")] *)
Fixpoint join (sep : string) (l : list string) : string :=
  match l with
  | [] => ""
  | [x] => x
  | x :: t => x ++ sep ++ join sep t
  end.

(** Membership test of a [Set] of strings. *)
Definition has (x : string) (l : list string) : bool :=
  existsb (String.eqb x) l.

(** [[...new Set(l)]]: a [Set] iterates in insertion order, and adding a
    value it already holds changes nothing. *)
Definition setAdd (acc : list string) (x : string) : list string :=
  if has x acc then acc else (acc ++ [x])%list.

Definition newSet (l : list string) : list string :=
  fold_left setAdd l [].

End JS.

(** ** Data model ([src/types.ts]) *)

Inductive Subject := MATH | PHYSICS | CHEMISTRY | ENGLISH | GENERAL.

Inductive ThinkingLevel := none | moderate | deep.

Inductive Role := RoleUser | RoleModel.

Record InlineData := { mimeType : string; data : string }.

(** [MessagePart]: both fields are optional, and nothing in the type keeps
    them from being present together or absent together. *)
Record MessagePart := {
  text : option string;
  inlineData : option InlineData
}.

Record Message := {
  role : Role;
  parts : list MessagePart;
  timestamp : Z;
  isError : option bool
}.

(** The SDK's [Part] and [Content], as far as the source builds them. *)
Inductive Part :=
| PartInline (d : InlineData)
| PartText (t : string).

Record Content := { c_role : Role; c_parts : list Part }.

(** ** [mapMessagesToContent] *)

(** The arrow function given to [msg.parts.map]: an object is always truthy,
    so [if (p.inlineData)] tests presence. *)
Definition mapPart (p : MessagePart) : Part :=
  match inlineData p with
  | Some d => PartInline {| mimeType := mimeType d; data := data d |}
  | None => PartText (JS.orElse (text p) "")
  end.

Definition mapMessagesToContent (messages : list Message) : list Content :=
  map (fun msg => {| c_role := role msg; c_parts := map mapPart (parts msg) |})
      messages.

(** ** The provider request and response *)

Inductive Tool := GoogleSearch.

Record GenerateContentConfig := {
  systemInstruction : string;
  thinkingConfig : option Z;      (* [{ thinkingBudget }] or [undefined] *)
  tools : option (list Tool)      (* the list or [undefined] *)
}.

Record Request := {
  model : string;
  contents : list Content;
  config : GenerateContentConfig
}.

Record GroundingChunkWeb := { title : string; uri : string }.

Record GroundingChunk := { web : option GroundingChunkWeb }.

Record GroundingMetadata := { groundingChunks : option (list GroundingChunk) }.

Record Candidate := { groundingMetadata : option GroundingMetadata }.

Record GenerateContentResponse := {
  resp_text : option string;
  candidates : option (list Candidate)
}.

(** A thrown value: an error object with its optional [message], and the
    fields the source never reads. *)
Record JsError := {
  name : string;
  message : option string;
  status : option Z
}.

(** [new Error(msg)] *)
Definition newError (msg : string) : JsError :=
  {| name := "Error"; message := Some msg; status := None |}.

(** ** Rendering a response (the success path of the loop body) *)

(** [response.candidates?.[0]?.groundingMetadata?.groundingChunks] *)
Definition groundingChunksOf (response : GenerateContentResponse)
  : option (list GroundingChunk) :=
  match candidates response with
  | Some (c :: _) =>
      match groundingMetadata c with
      | Some gm => groundingChunks gm
      | None => None
      end
  | _ => None
  end.

Definition sourceLine (w : GroundingChunkWeb) : string :=
  "- [" ++ title w ++ "](" ++ uri w ++ ")".

(** The arrow function given to [groundingChunks.map]. *)
Definition chunkSource (chunk : GroundingChunk) : option string :=
  match web chunk with
  | Some w => Some (sourceLine w)
  | None => None
  end.

(** [.filter(Boolean)]: [null] and the empty string are dropped. *)
Fixpoint filterBoolean (l : list (option string)) : list string :=
  match l with
  | [] => []
  | Some s :: t => if JS.truthy s then s :: filterBoolean t else filterBoolean t
  | None :: t => filterBoolean t
  end.

Definition fallbackText : string := "I couldn't generate a text response.".

Definition sourcesHeader : string :=
  JS.nl ++ JS.nl ++ "---" ++ JS.nl ++ "### 🌐 Sources" ++ JS.nl.

Definition sourcesOf (chunks : list GroundingChunk) : list string :=
  filterBoolean (map chunkSource chunks).

Definition renderResponse (response : GenerateContentResponse) : string :=
  let text := JS.orElse (resp_text response) fallbackText in
  match groundingChunksOf response with
  | Some chunks =>
      if (0 <? List.length chunks)%nat then
        let sources := sourcesOf chunks in
        let uniqueSources := JS.newSet sources in
        if (0 <? List.length uniqueSources)%nat
        then text ++ sourcesHeader ++ JS.join JS.nl uniqueSources
        else text
      else text
  | None => text
  end.

(** ** Classification of a provider error (the head of the catch block) *)

Definition errorMessageOf (error : JsError) : string :=
  JS.orElse (option_map JS.toLowerCase (message error)) "".

Definition isRateLimit (error : JsError) : bool :=
  let errorMessage := errorMessageOf error in
  JS.includes "429" errorMessage || JS.includes "quota" errorMessage
  || JS.includes "limit" errorMessage.

Definition isServerOverload (error : JsError) : bool :=
  let errorMessage := errorMessageOf error in
  JS.includes "503" errorMessage || JS.includes "overloaded" errorMessage.

Definition retryable (error : JsError) : bool :=
  isRateLimit error || isServerOverload error.

(** ** The world the function runs in *)

(** What [generateResponse] does to the outside, in order. *)
Inductive Event :=
| Call (req : Request)                            (* ai.models.generateContent *)
| Wait (ms : Q)                                   (* await wait(delay) *)
| WarnRateLimit (attempts : nat) (modelName : string)  (* console.warn *)
| LogSwitching                                    (* console.log *)
| LogError (error : JsError).                     (* console.error *)

Definition callsOf (tr : list Event) : list Request :=
  flat_map (fun e => match e with Call r => [r] | _ => [] end) tr.

Definition waitsOf (tr : list Event) : list Q :=
  flat_map (fun e => match e with Wait d => [d] | _ => [] end) tr.

Definition switchesOf (tr : list Event) : nat :=
  List.length (filter (fun e => match e with LogSwitching => true | _ => false end) tr).

(** A simulated provider answers its [n]-th request (counted from 0) with a
    response or a thrown error. *)
Definition Provider := nat -> Request -> GenerateContentResponse + JsError.

(** Computations that append to the trace of events. *)
Definition M (A : Type) : Type := list Event -> A * list Event.

Definition ret {A} (a : A) : M A := fun tr => (a, tr).

Definition bind {A B} (m : M A) (k : A -> M B) : M B :=
  fun tr => let (a, tr') := m tr in k a tr'.

Declare Scope io_scope.
Delimit Scope io_scope with io.
Notation "x <- m ;; k" := (bind m (fun x => k))
  (at level 100, m at next level, right associativity) : io_scope.
Notation "m ;;; k" := (bind m (fun _ => k))
  (at level 100, right associativity) : io_scope.
Open Scope io_scope.

Definition emit (e : Event) : M unit := fun tr => (tt, (tr ++ [e])%list).

Definition generateContent (provider : Provider) (req : Request)
  : M (GenerateContentResponse + JsError) :=
  fun tr => (provider (List.length (callsOf tr)) req, (tr ++ [Call req])%list).

(** ** [generateResponse] *)

Definition flashModel : string := "gemini-2.5-flash".
Definition proModel : string := "gemini-3-pro-preview".

Definition maxAttempts : nat := 3.
Definition initialDelay : Q := 1000.

(** [delay *= 1.5].  The delays the loop can reach (1000, 1500, 2250) and
    their products are exact in double precision, so the rational product is
    the value the source computes. *)
Definition growDelay (delay : Q) : Q := Qred (delay * (3 # 2)).

(** The [switch] on the thinking level. *)
Definition selectModel (thinkingLevel : ThinkingLevel) : string * Z :=
  match thinkingLevel with
  | deep => (proModel, 8192%Z)
  | moderate => (flashModel, 2048%Z)
  | none => (flashModel, 0%Z)
  end.

(** The variables the loop assigns. *)
Record LoopState := {
  modelName : string;
  thinkingBudget : Z;
  attempts : nat;
  delay : Q
}.

(** How one pass through the loop body ends. *)
Inductive Control :=
| Continue (st : LoopState)
| Return (text : string)
| Throw (error : JsError).

(** How a call of [generateResponse] ends: the promise resolves with a string
    or rejects with a thrown value. *)
Inductive Outcome :=
| Returned (text : string)
| Thrown (error : JsError).

Definition configMessage : string :=
  "The AI service is not configured correctly. Please set the API Key in your dashboard.".

(** [!apiKey] for the optional string [process.env.API_KEY] *)
Definition keyMissing (apiKey : option string) : bool :=
  match apiKey with
  | Some k => negb (JS.truthy k)
  | None => true
  end.

Section Service.

(** [SYSTEM_INSTRUCTIONS] of the constants module: one fixed string per
    subject. *)
Variable SYSTEM_INSTRUCTIONS : Subject -> string.

Variable provider : Provider.

(** The argument of [ai.models.generateContent]. *)
Definition buildRequest (modelName : string) (thinkingBudget : Z)
    (contents : list Content) (systemInstruction : string)
    (tools : list Tool) : Request :=
  {| model := modelName;
     contents := contents;
     config :=
       {| systemInstruction := systemInstruction;
          thinkingConfig :=
            if (0 <? thinkingBudget)%Z then Some thinkingBudget else None;
          tools := if (0 <? List.length tools)%nat then Some tools else None |} |}.

(** The two statements after the retry branch of the catch block. *)
Definition rethrow (attempts : nat) (error : JsError) : M Control :=
  if (maxAttempts <=? attempts)%nat && (isRateLimit error || isServerOverload error)
  then ret (Throw (newError "RATE_LIMIT_60"))
  else (emit (LogError error) ;;; ret (Throw error)).

(** One pass through the body of the [while] loop. *)
Definition iteration (contents : list Content) (systemInstruction : string)
    (tools : list Tool) (st : LoopState) : M Control :=
  let attempts := S (attempts st) in
  r <- generateContent provider
         (buildRequest (modelName st) (thinkingBudget st) contents
                       systemInstruction tools) ;;
  match r with
  | inl response => ret (Return (renderResponse response))
  | inr error =>
      if isRateLimit error || isServerOverload error then
        emit (WarnRateLimit attempts (modelName st)) ;;;
        if (modelName st =? proModel)%string then
          emit LogSwitching ;;;
          ret (Continue {| modelName := flashModel; thinkingBudget := 0;
                           attempts := attempts; delay := 1000 |})
        else if (attempts <? maxAttempts)%nat then
          emit (Wait (delay st)) ;;;
          ret (Continue {| modelName := modelName st;
                           thinkingBudget := thinkingBudget st;
                           attempts := attempts;
                           delay := growDelay (delay st) |})
        else rethrow attempts error
      else rethrow attempts error
  end.

(** The [while] loop and the [throw] after it.  [fuel] bounds the number of
    passes; [None] means the fuel ran out. *)
Fixpoint loop (fuel : nat) (contents : list Content)
    (systemInstruction : string) (tools : list Tool) (st : LoopState)
    : M (option Outcome) :=
  if (attempts st <? maxAttempts)%nat then
    match fuel with
    | O => ret None
    | S fuel' =>
        c <- iteration contents systemInstruction tools st ;;
        match c with
        | Continue st' => loop fuel' contents systemInstruction tools st'
        | Return text => ret (Some (Returned text))
        | Throw error => ret (Some (Thrown error))
        end
    end
  else ret (Some (Thrown (newError "Connection failed."))).

Definition generateResponseFuel (fuel : nat) (apiKey : option string)
    (history : list Message) (currentSubject : Subject)
    (thinkingLevel : ThinkingLevel) (useSearch : bool) : M (option Outcome) :=
  if keyMissing apiKey then ret (Some (Returned configMessage))
  else
    let '(modelName, thinkingBudget) := selectModel thinkingLevel in
    let contents := mapMessagesToContent history in
    let systemInstruction := SYSTEM_INSTRUCTIONS currentSubject in
    let tools := if useSearch then [GoogleSearch] else [] in
    loop fuel contents systemInstruction tools
         {| modelName := modelName; thinkingBudget := thinkingBudget;
            attempts := 0; delay := initialDelay |}.

(** The loop body runs at most [maxAttempts] times, so this much fuel is all
    the function ever uses: more fuel gives the same result (lemma
    [generateResponse_fuel] below). *)
Definition generateResponse := generateResponseFuel maxAttempts.

End Service.

(** The request of the first pass through the loop. *)
Definition initialRequest (SYSTEM_INSTRUCTIONS : Subject -> string)
    (history : list Message) (currentSubject : Subject)
    (thinkingLevel : ThinkingLevel) (useSearch : bool) : Request :=
  buildRequest (fst (selectModel thinkingLevel)) (snd (selectModel thinkingLevel))
               (mapMessagesToContent history)
               (SYSTEM_INSTRUCTIONS currentSubject)
               (if useSearch then [GoogleSearch] else []).

(** The provider's answer to the last call of a trace. *)
Definition lastAnswer (provider : Provider) (tr : list Event)
  : option (GenerateContentResponse + JsError) :=
  let calls := callsOf tr in
  match nth_error calls (List.length calls - 1) with
  | Some req => Some (provider (List.length calls - 1)%nat req)
  | None => None
  end.

(** The three ways a guarded call ends, read off the provider's last answer. *)
Inductive Kind := Done | Fatal | RateLimited.

Definition rateLimitError : JsError := newError "RATE_LIMIT_60".

Definition terminal (provider : Provider) (k : Kind) (tr : list Event)
    (out : Outcome) : Prop :=
  match k with
  | Done =>
      exists r, lastAnswer provider tr = Some (inl r)
                /\ out = Returned (renderResponse r)
  | Fatal =>
      exists e, lastAnswer provider tr = Some (inr e)
                /\ retryable e = false /\ out = Thrown e
  | RateLimited =>
      exists e, lastAnswer provider tr = Some (inr e)
                /\ retryable e = true
                /\ List.length (callsOf tr) = maxAttempts
                /\ out = Thrown rateLimitError
  end.

(** The web references of a chunk list, in order. *)
Definition websOf (chunks : list GroundingChunk) : list GroundingChunkWeb :=
  flat_map (fun c => match web c with Some w => [w] | None => [] end) chunks.

Definition web_eqb (a b : GroundingChunkWeb) : bool :=
  (title a =? title b)%string && (uri a =? uri b)%string.

(** The de-duplication as the specification words it: by exact equality of
    the (title, uri) pair, first seen first. *)
Definition spec_addPair (acc : list GroundingChunkWeb) (w : GroundingChunkWeb)
  : list GroundingChunkWeb :=
  if existsb (web_eqb w) acc then acc else (acc ++ [w])%list.

Definition spec_uniquePairs (l : list GroundingChunkWeb)
  : list GroundingChunkWeb :=
  fold_left spec_addPair l [].

(** What a run of the loop guarantees about the calls it made, the first of
    them being the provider's [base]-th, when it started with the attempt
    counter at [a0]. *)
Definition answerOutcome (a0 calls : nat)
    (a : GenerateContentResponse + JsError) (out : Outcome) : Prop :=
  match a with
  | inl r => out = Returned (renderResponse r)
  | inr e =>
      if retryable e
      then out = Thrown rateLimitError /\ (a0 + calls)%nat = maxAttempts
      else out = Thrown e
  end.

Record RunSpec (provider : Provider) (base a0 : nat) (calls : list Request)
    (out : Outcome) : Prop := {
  run_earlier : forall k req,
    nth_error calls k = Some req -> (S k < List.length calls)%nat ->
    exists e, provider (base + k)%nat req = inr e /\ retryable e = true;
  run_last : exists req,
    nth_error calls (List.length calls - 1) = Some req
    /\ answerOutcome a0 (List.length calls)
         (provider (base + (List.length calls - 1))%nat req) out;
  run_bound : (a0 + List.length calls <= maxAttempts)%nat
}.

(** ** Measures of a run *)

(** The delays of [n] successive waits that start at [d]. *)
Fixpoint schedule (d : Q) (n : nat) : list Q :=
  match n with
  | O => []
  | S k => d :: schedule (growDelay d) k
  end.

(** The request of every pass after the first one that starts in state
    [st]: a premium state is left for the fast model without budget, any
    other state keeps its model and budget. *)
Definition laterRequest (contents : list Content) (systemInstruction : string)
    (tools : list Tool) (st : LoopState) : Request :=
  if (modelName st =? proModel)%string
  then buildRequest flashModel 0 contents systemInstruction tools
  else buildRequest (modelName st) (thinkingBudget st) contents
                    systemInstruction tools.

(** The traces made of passes through the loop body: every pass but the
    last is a request, the warning, and then either one wait or the switch
    of model; the last pass is a request alone (answered), a request and the
    logged error (rethrown), or a request and the warning (attempts used
    up). *)
Inductive Passes : list Event -> Prop :=
| passes_answered (req : Request) : Passes [Call req]
| passes_rethrown (req : Request) (e : JsError) : Passes [Call req; LogError e]
| passes_exhausted (req : Request) (n : nat) (m : string) :
    Passes [Call req; WarnRateLimit n m]
| passes_wait (req : Request) (n : nat) (m : string) (d : Q)
    (rest : list Event) :
    Passes rest -> Passes (Call req :: WarnRateLimit n m :: Wait d :: rest)
| passes_switch (req : Request) (n : nat) (m : string) (rest : list Event) :
    Passes rest -> Passes (Call req :: WarnRateLimit n m :: LogSwitching :: rest).

(** A message part as the type comment of the data model wants it: exactly
    one of the two fields is there. *)
Definition wellFormedPart (p : MessagePart) : Prop :=
  (exists d, inlineData p = Some d /\ text p = None)
  \/ (exists t, inlineData p = None /\ text p = Some t /\ t <> "").

(** ** The chat screen ([App]): sending a turn *)

Module App.

(** The keys of [histories] are the values of the [Subject] enum. *)
Definition subjectKey (s : Subject) : string :=
  match s with
  | MATH => "MATH"
  | PHYSICS => "PHYSICS"
  | CHEMISTRY => "CHEMISTRY"
  | ENGLISH => "ENGLISH"
  | GENERAL => "GENERAL"
  end.

(** [Record<string, Message[]>] *)
Definition Histories : Type := string -> option (list Message).

(** [h[key] || []] *)
Definition messagesOf (h : Histories) (key : string) : list Message :=
  match h key with
  | Some l => l
  | None => []
  end.

(** [{ ...prev, [key]: value }] *)
Definition withKey (prev : Histories) (key : string) (value : list Message)
  : Histories :=
  fun k => if (k =? key)%string then Some value else prev k.

(** The state cells of [App] that [handleSend] reads or sets. *)
Record State := {
  histories : Histories;
  activeSubject : Subject;
  isLoading : bool;
  thinkingLevel : ThinkingLevel;
  useSearch : bool;
  limitResetTime : option Z
}.

Definition setHistories (f : Histories -> Histories) (s : State) : State :=
  {| histories := f (histories s); activeSubject := activeSubject s;
     isLoading := isLoading s; thinkingLevel := thinkingLevel s;
     useSearch := useSearch s; limitResetTime := limitResetTime s |}.

Definition setIsLoading (b : bool) (s : State) : State :=
  {| histories := histories s; activeSubject := activeSubject s;
     isLoading := b; thinkingLevel := thinkingLevel s;
     useSearch := useSearch s; limitResetTime := limitResetTime s |}.

Definition setLimitResetTime (t : option Z) (s : State) : State :=
  {| histories := histories s; activeSubject := activeSubject s;
     isLoading := isLoading s; thinkingLevel := thinkingLevel s;
     useSearch := useSearch s; limitResetTime := t |}.

(** What a call of [handleSend] does to the outside: the events of the
    service, and its own [console.error]. *)
Inductive Log :=
| Service (e : Event)
| AppError (error : JsError).

(** [error.message && error.message.includes("RATE_LIMIT")] *)
Definition rateLimitSignal (error : JsError) : bool :=
  match message error with
  | Some m => JS.truthy m && JS.includes "RATE_LIMIT" m
  | None => false
  end.

Definition connectionUnstable : string :=
  "⚠️ Connection unstable. Switching to offline backup mode... please try again.".

Definition userMessage (text : string) (image : option InlineData) (now : Z)
  : Message :=
  {| role := RoleUser;
     parts :=
       ((match image with
         | Some i => [ {| text := None; inlineData := Some i |} ]
         | None => []
         end)
        ++ (if JS.truthy text
            then [ {| text := Some text; inlineData := None |} ]
            else []))%list;
     timestamp := now;
     isError := None |}.

Definition botMessage (responseText : string) (now : Z) : Message :=
  {| role := RoleModel;
     parts := [ {| text := Some responseText; inlineData := None |} ];
     timestamp := now;
     isError := None |}.

Definition errorMessage (now : Z) : Message :=
  {| role := RoleModel;
     parts := [ {| text := Some connectionUnstable; inlineData := None |} ];
     timestamp := now;
     isError := Some true |}.

(** [prev => ({ ...prev, [key]: [...(prev[key] || []), m] })] *)
Definition appendTo (key : string) (m : Message) (prev : Histories)
  : Histories :=
  withKey prev key (messagesOf prev key ++ [m])%list.

(** The part of [handleSend] after the [await], for the subject the handler
    was created with: its state updates are applied to the state [prev] of
    that moment.  [now] is the value of [Date.now()] there. *)
Definition finishSend (subject : Subject) (out : Outcome) (now : Z)
    (prev : State) : State * list Log :=
  let key := subjectKey subject in
  match out with
  | Returned responseText =>
      (setIsLoading false
         (setHistories (appendTo key (botMessage responseText now)) prev),
       [])
  | Thrown error =>
      (setIsLoading false
         (if rateLimitSignal error
          then setLimitResetTime (Some (now + 60000)%Z) prev
          else setHistories (appendTo key (errorMessage now)) prev),
       [AppError error])
  end.

Section Handlers.

Variable SYSTEM_INSTRUCTIONS : Subject -> string.
Variable provider : Provider.

(** [process.env.API_KEY] *)
Variable apiKey : option string.

(** [String.prototype.trim] *)
Variable trim : string -> string.

(** The guard at the head of [handleSend]. *)
Definition ignored (s : State) (text : string) (image : option InlineData)
  : bool :=
  (negb (JS.truthy (trim text))
   && match image with Some _ => false | None => true end)
  || isLoading s.

(** [handleSend], run without any other handler in between.  [now1] and
    [now2] are the values of [Date.now()] before and after the [await];
    [None] means the service ran out of fuel. *)
Definition handleSend (s : State) (text : string) (image : option InlineData)
    (now1 now2 : Z) : option (State * list Log) :=
  if ignored s text image then Some (s, [])
  else
    let key := subjectKey (activeSubject s) in
    let messages := messagesOf (histories s) key in
    let updatedSubjectHistory := (messages ++ [userMessage text image now1])%list in
    let s1 :=
      setIsLoading true
        (setHistories (fun prev => withKey prev key updatedSubjectHistory) s) in
    match generateResponse SYSTEM_INSTRUCTIONS provider apiKey
            updatedSubjectHistory (activeSubject s) (thinkingLevel s)
            (useSearch s) [] with
    | (Some out, tr) =>
        let (s2, logs) := finishSend (activeSubject s) out now2 s1 in
        Some (s2, (map Service tr ++ logs)%list)
    | (None, _) => None
    end.

End Handlers.

End App.

(** ** The rate-limit popup *)

Module Popup.

(** [Math.ceil((resetTime - Date.now()) / 1000)] on time stamps, which are
    whole numbers of milliseconds: their difference is far below 2^53, where
    the double-precision quotient has the ceiling of the exact one. *)
Definition remaining (resetTime now : Z) : Z :=
  (- ((- (resetTime - now)) / 1000))%Z.

(** The state of the popup: [timeLeft], and whether its interval timer is
    still set. *)
Record State := {
  timeLeft : Z;
  timerRunning : bool
}.

(** The first render and the effect after it: [timeLeft] starts at the value
    computed at [now], and the timer is set. *)
Definition mount (resetTime now : Z) : State :=
  {| timeLeft := remaining resetTime now; timerRunning := true |}.

(** The callback of the timer, run at [now]: [timeLeft] is set to the value
    computed then, and the timer is cleared once that value is 0 or less.  A
    cleared timer runs no callback. *)
Definition tick (resetTime now : Z) (st : State) : State :=
  if timerRunning st then
    let remaining := remaining resetTime now in
    {| timeLeft := remaining; timerRunning := negb (remaining <=? 0)%Z |}
  else st.

(** [isReady = timeLeft <= 0] *)
Definition isReady (st : State) : bool := (timeLeft st <=? 0)%Z.

(** The number shown: [isReady ? 0 : timeLeft]. *)
Definition shown (st : State) : Z :=
  if isReady st then 0%Z else timeLeft st.

(** The popup mounted at [mountTime], after the callbacks at the times
    [ticks]. *)
Definition after (resetTime mountTime : Z) (ticks : list Z) : State :=
  fold_left (fun st now => tick resetTime now st) ticks
            (mount resetTime mountTime).

(** Time stamps that do not go back, from [from] on. *)
Fixpoint ascending (from : Z) (l : list Z) : Prop :=
  match l with
  | [] => True
  | t :: r => (from <= t)%Z /\ ascending t r
  end.

End Popup.

(** ** A chat bubble ([ChatMessage]) *)

Module Chat.

(** [message.parts.map(p => p.text).filter(Boolean).join('\n')] *)
Definition fullText (m : Message) : string :=
  JS.join JS.nl (filterBoolean (map text (parts m))).

(** The toolbar with Copy and Share is rendered for [!isUser && fullText]. *)
Definition toolbarShown (m : Message) : bool :=
  match role m with
  | RoleUser => false
  | RoleModel => JS.truthy (fullText m)
  end.

(** The [src] of the image of a part. *)
Definition imageSrc (d : InlineData) : string :=
  "data:" ++ mimeType d ++ ";base64," ++ data d.

End Chat.

(** ** The input bar ([InputArea]) *)

Module Input.

(** [s.split(',')] *)
Fixpoint splitComma (s : string) : list string :=
  match s with
  | EmptyString => [EmptyString]
  | String c t =>
      if Ascii.eqb c ","%char then EmptyString :: splitComma t
      else match splitComma t with
           | h :: r => String c h :: r
           | [] => [String c EmptyString]
           end
  end.

(** [base64String.split(',')[1]], [None] for [undefined]. *)
Definition base64Data (base64String : string) : option string :=
  nth_error (splitComma base64String) 1.

(** The image the input bar holds, as its state types it. *)
Record SelectedImage := {
  imageData : string;
  imageMimeType : string;
  preview : string
}.

Record State := {
  text : string;
  selectedImage : option SelectedImage
}.

(** [handleSend] of the input bar, for the [isLoading] it was rendered
    with: the arguments it calls [onSend] with, if it does, and its state
    afterwards. *)
Definition handleSend (trim : string -> string) (isLoading : bool) (st : State)
  : option (string * option InlineData) * State :=
  if (negb (JS.truthy (trim (text st)))
      && match selectedImage st with Some _ => false | None => true end)
     || isLoading
  then (None, st)
  else
    (Some (text st,
           match selectedImage st with
           | Some i => Some {| mimeType := imageMimeType i; data := imageData i |}
           | None => None
           end),
     {| text := ""; selectedImage := None |}).

End Input.

(** ** The single-file copy of the service *)

Module Single.

Definition flashModel : string := "gemini-3-flash-preview".
Definition proModel : string := "gemini-3-pro-preview".

(** The [if] chain on the thinking level. *)
Definition selectModel (thinking : ThinkingLevel) : string * Z :=
  match thinking with
  | deep => (proModel, 32768%Z)
  | moderate => (flashModel, 16000%Z)
  | none => (flashModel, 0%Z)
  end.

(** The translation of the history, written inline in this copy. *)
Definition contentsOf (history : list Message) : list Content :=
  map (fun msg =>
         {| c_role := role msg;
            c_parts :=
              map (fun p => match inlineData p with
                            | Some d => PartInline d
                            | None => PartText (JS.orElse (text p) "")
                            end)
                  (parts msg) |})
      history.

Definition fallbackText : string := "No response generated.".

Definition renderResponse (response : GenerateContentResponse) : string :=
  let text := JS.orElse (resp_text response) fallbackText in
  match groundingChunksOf response with
  | Some chunks =>
      let sources := sourcesOf chunks in
      if (0 <? List.length sources)%nat
      then text ++ sourcesHeader ++ JS.join JS.nl (JS.newSet sources)
      else text
  | None => text
  end.

(** [error.message?.includes("429") || error.message?.includes("503")] *)
Definition isRateLimit (error : JsError) : bool :=
  match message error with
  | Some m => JS.includes "429" m || JS.includes "503" m
  | None => false
  end.

Definition keyMissingMessage : string := "API Key Missing.".

Section Service.

Variable SYSTEM_INSTRUCTIONS : Subject -> string.
Variable provider : Provider.

Definition requestOf (history : list Message) (subject : Subject)
    (thinking : ThinkingLevel) (search : bool) : Request :=
  let '(modelName, thinkingBudget) := selectModel thinking in
  {| model := modelName;
     contents := contentsOf history;
     config :=
       {| systemInstruction := SYSTEM_INSTRUCTIONS subject;
          thinkingConfig :=
            if (0 <? thinkingBudget)%Z then Some thinkingBudget else None;
          tools := if search then Some [GoogleSearch] else None |} |}.

Definition generateResponse (apiKey : option string) (history : list Message)
    (subject : Subject) (thinking : ThinkingLevel) (search : bool)
  : M Outcome :=
  if keyMissing apiKey then ret (Returned keyMissingMessage)
  else
    r <- generateContent provider (requestOf history subject thinking search) ;;
    match r with
    | inl response => ret (Returned (renderResponse response))
    | inr error =>
        if isRateLimit error then ret (Thrown (newError "RATE_LIMIT"))
        else ret (Thrown error)
    end.

End Service.

End Single.

(** ** Sample inputs *)

Definition samplePartBoth : MessagePart :=
  {| text := Some "what is this?";
     inlineData := Some {| mimeType := "image/png"; data := "iVBORw0KGgo=" |} |}.

Definition samplePartNeither : MessagePart :=
  {| text := None; inlineData := None |}.

Definition sampleMessage : Message :=
  {| role := RoleUser; parts := [samplePartBoth; samplePartNeither];
     timestamp := 1700000000000; isError := None |}.

Definition sampleHistory : list Message := [sampleMessage].

Definition sampleInstructions : Subject -> string :=
  fun _ => "You are a helpful AI assistant.".

Definition sampleResponse : GenerateContentResponse :=
  {| resp_text := Some "x = 2"; candidates := None |}.

Definition emptyResponse : GenerateContentResponse :=
  {| resp_text := Some ""; candidates := Some [ {| groundingMetadata := None |} ] |}.

Definition error503 : JsError :=
  {| name := "ApiError";
     message := Some "503 Service Unavailable: The model is overloaded.";
     status := Some 503%Z |}.

Definition error429 : JsError :=
  {| name := "ApiError";
     message := Some "429 Too Many Requests: Resource has been exhausted.";
     status := Some 429%Z |}.

Definition error400 : JsError :=
  {| name := "ApiError";
     message := Some "400 Bad Request: malformed request body.";
     status := Some 400%Z |}.

Definition errorQuota : JsError :=
  {| name := "ApiError"; message := Some "Resource Exhausted: QUOTA exceeded";
     status := None |}.

Definition wellFormedParts : list MessagePart :=
  [ {| text := None;
       inlineData := Some {| mimeType := "image/jpeg"; data := "QUJD" |} |};
    {| text := Some "solve this"; inlineData := None |} ].

Definition wellFormedHistory : list Message :=
  [ {| role := RoleUser; parts := wellFormedParts;
       timestamp := 1700000000000; isError := None |} ].

(** The same turn, stored with another time stamp. *)
Definition wellFormedHistoryLater : list Message :=
  [ {| role := RoleUser; parts := wellFormedParts;
       timestamp := 1700000000999; isError := Some false |} ].

(** A [trim] for the samples: it removes spaces, tabs and line ends at both
    ends. *)
Definition isSpace (c : ascii) : bool :=
  let n := nat_of_ascii c in
  (n =? 32)%nat || ((9 <=? n)%nat && (n <=? 13)%nat).

Fixpoint trimStart (s : string) : string :=
  match s with
  | EmptyString => EmptyString
  | String c t => if isSpace c then trimStart t else s
  end.

Fixpoint trimEnd (s : string) : string :=
  match s with
  | EmptyString => EmptyString
  | String c t =>
      match trimEnd t with
      | EmptyString => if isSpace c then EmptyString else String c EmptyString
      | r => String c r
      end
  end.

Definition sampleTrim (s : string) : string := trimEnd (trimStart s).

Definition sampleImage : InlineData :=
  {| mimeType := "image/jpeg"; data := "QUJD" |}.

Definition sampleState : App.State :=
  {| App.histories :=
       fun k => if (k =? "MATH")%string then Some wellFormedHistory else None;
     App.activeSubject := MATH;
     App.isLoading := false;
     App.thinkingLevel := moderate;
     App.useSearch := false;
     App.limitResetTime := None |}.

(** The times of a popup mounted 12 ms after a failure at 1700000005000 and
    refreshed three times, the last time after the reset time. *)
Definition sampleFailureTime : Z := 1700000005000.
Definition sampleMountTime : Z := 1700000005012.
Definition sampleTicks : list Z :=
  [1700000006015%Z; 1700000064020%Z; 1700000065030%Z].

(** A provider that is overloaded at every call. *)
Definition providerOverloaded : Provider := fun _ _ => inr error503.

(** A provider that refuses the premium model and answers the fast one. *)
Definition providerPremiumLimited : Provider :=
  fun _ req =>
    if (model req =? proModel)%string then inr error429 else inl sampleResponse.

(** A provider that is overloaded at its first request only. *)
Definition providerHiccup : Provider :=
  fun n _ => match n with O => inr error503 | S _ => inl sampleResponse end.

(** A provider that rejects every request as malformed. *)
Definition providerMalformed : Provider := fun _ _ => inr error400.

(** A provider that answers every request. *)
Definition providerHealthy : Provider := fun _ _ => inl sampleResponse.

(** Two different (title, uri) pairs with the same rendered line. *)
Definition webA : GroundingChunkWeb := {| title := "a](b"; uri := "c" |}.
Definition webB : GroundingChunkWeb := {| title := "a"; uri := "b](c" |}.

Definition collidingResponse : GenerateContentResponse :=
  {| resp_text := Some "See below.";
     candidates :=
       Some [ {| groundingMetadata :=
                   Some {| groundingChunks :=
                             Some [ {| web := Some webA |};
                                    {| web := Some webB |} ] |} |} ] |}.

Definition webWiki : GroundingChunkWeb :=
  {| title := "Quadratic equation"; uri := "https://en.wikipedia.org/wiki/Quadratic_equation" |}.
Definition webKhan : GroundingChunkWeb :=
  {| title := "Khan Academy"; uri := "https://www.khanacademy.org/math" |}.

Definition groundedResponse : GenerateContentResponse :=
  {| resp_text := Some "x = 2";
     candidates :=
       Some [ {| groundingMetadata :=
                   Some {| groundingChunks :=
                             Some [ {| web := Some webWiki |};
                                    {| web := None |};
                                    {| web := Some webKhan |};
                                    {| web := Some webWiki |} ] |} |} ] |}.

(** * Lemmas *)

(** ** Strings and the insertion-ordered set *)

Lemma has_In x l : JS.has x l = true <-> In x l.
Proof.
  unfold JS.has. rewrite existsb_exists. split.
  - intros (y & Hy & E). apply String.eqb_eq in E. now subst.
  - intros H. exists x. split; [assumption | apply String.eqb_refl].
Qed.

Lemma fold_setAdd_app l : forall acc,
  exists ext, fold_left JS.setAdd l acc = (acc ++ ext)%list
    /\ NoDup ext
    /\ (forall x, In x ext <-> In x l /\ ~ In x acc).
Proof.
  induction l as [|a l IH]; intros acc; simpl.
  - exists []. rewrite app_nil_r. split; [reflexivity|].
    split; [constructor|]. simpl; tauto.
  - unfold JS.setAdd at 2. destruct (JS.has a acc) eqn:Ha.
    + apply has_In in Ha. destruct (IH acc) as (ext & E & ND & Hin).
      exists ext. split; [assumption|]. split; [assumption|].
      intros x. rewrite Hin. split.
      * tauto.
      * intros [[-> | Hx] Hn]; [contradiction | tauto].
    + assert (Hna : ~ In a acc).
      { intros Hc. apply has_In in Hc. congruence. }
      destruct (IH (acc ++ [a])%list) as (ext & E & ND & Hin).
      exists (a :: ext). rewrite E, <- app_assoc. simpl.
      split; [reflexivity|]. split.
      * constructor; [|assumption]. intros Hc. apply Hin in Hc.
        destruct Hc as [_ Hc]. apply Hc, in_or_app. right. now left.
      * intros x. rewrite Hin, in_app_iff. simpl.
        destruct (string_dec a x) as [-> | Hne]; [tauto|]. tauto.
Qed.

Lemma newSet_NoDup l : NoDup (JS.newSet l).
Proof.
  unfold JS.newSet. destruct (fold_setAdd_app l []) as (ext & E & ND & _).
  now rewrite E.
Qed.

Lemma newSet_In l x : In x (JS.newSet l) <-> In x l.
Proof.
  unfold JS.newSet. destruct (fold_setAdd_app l []) as (ext & E & _ & Hin).
  rewrite E. simpl. rewrite Hin. simpl. tauto.
Qed.

(** First-seen order: the set of a prefix is a prefix of the set. *)
Lemma newSet_prefix p s : exists ext, JS.newSet (p ++ s) = (JS.newSet p ++ ext)%list.
Proof.
  unfold JS.newSet. rewrite fold_left_app.
  destruct (fold_setAdd_app s (fold_left JS.setAdd p [])) as (ext & E & _).
  now exists ext.
Qed.

Lemma newSet_once l x : In x l -> count_occ string_dec (JS.newSet l) x = 1%nat.
Proof.
  intros H. apply newSet_In in H.
  pose proof (newSet_NoDup l) as ND.
  rewrite (NoDup_count_occ string_dec) in ND. specialize (ND x).
  apply (count_occ_In string_dec) in H. lia.
Qed.

Lemma newSet_nonempty l : l <> [] -> JS.newSet l <> [].
Proof.
  destruct l as [|a l]; [congruence|]. intros _ E.
  assert (H : In a (JS.newSet (a :: l))) by (apply newSet_In; now left).
  rewrite E in H. destruct H.
Qed.

Lemma sourcesOf_webs chunks : sourcesOf chunks = map sourceLine (websOf chunks).
Proof.
  unfold sourcesOf, websOf. induction chunks as [|c chunks IH]; simpl; [reflexivity|].
  unfold chunkSource at 1. destruct (web c) as [w|]; simpl; now rewrite IH.
Qed.

(** ** One pass through the loop body *)

Section Iteration.

Variable provider : Provider.
Variables (contents : list Content) (systemInstruction : string)
          (tools : list Tool).
Variables (st : LoopState) (tr : list Event).

Let req := buildRequest (modelName st) (thinkingBudget st) contents
                        systemInstruction tools.
Let answer := provider (List.length (callsOf tr)) req.
Let body := iteration provider contents systemInstruction tools st tr.

Lemma iteration_success r :
  answer = inl r ->
  body = (Return (renderResponse r), (tr ++ [Call req])%list).
Proof.
  unfold body, answer, iteration, bind, generateContent; fold req.
  now intros ->.
Qed.

Lemma iteration_fatal e :
  answer = inr e -> retryable e = false ->
  body = (Throw e, (tr ++ [Call req; LogError e])%list).
Proof.
  unfold body, answer, iteration, rethrow, retryable, bind, generateContent, emit, ret;
    fold req.
  intros -> ->. rewrite andb_false_r, <- app_assoc. reflexivity.
Qed.

Lemma iteration_downgrade e :
  answer = inr e -> retryable e = true -> modelName st = proModel ->
  body = (Continue {| modelName := flashModel; thinkingBudget := 0;
                      attempts := S (attempts st); delay := 1000 |},
          (tr ++ [Call req; WarnRateLimit (S (attempts st)) proModel;
                  LogSwitching])%list).
Proof.
  unfold body, answer, iteration, retryable, bind, generateContent, emit, ret;
    fold req.
  intros -> -> ->. rewrite String.eqb_refl, <- !app_assoc. reflexivity.
Qed.

Lemma iteration_backoff e :
  answer = inr e -> retryable e = true -> modelName st <> proModel ->
  (S (attempts st) < maxAttempts)%nat ->
  body = (Continue {| modelName := modelName st;
                      thinkingBudget := thinkingBudget st;
                      attempts := S (attempts st);
                      delay := growDelay (delay st) |},
          (tr ++ [Call req; WarnRateLimit (S (attempts st)) (modelName st);
                  Wait (delay st)])%list).
Proof.
  unfold body, answer, iteration, retryable, bind, generateContent, emit, ret;
    fold req.
  intros -> -> Hm Hlt. apply String.eqb_neq in Hm. rewrite Hm.
  apply Nat.ltb_lt in Hlt. rewrite Hlt, <- !app_assoc. reflexivity.
Qed.

Lemma iteration_exhausted e :
  answer = inr e -> retryable e = true -> modelName st <> proModel ->
  (maxAttempts <= S (attempts st))%nat ->
  body = (Throw rateLimitError,
          (tr ++ [Call req; WarnRateLimit (S (attempts st)) (modelName st)])%list).
Proof.
  unfold body, answer, iteration, rethrow, retryable, bind, generateContent, emit, ret;
    fold req.
  intros -> He Hm Hge. rewrite He. apply String.eqb_neq in Hm. rewrite Hm.
  assert (Hlt : (S (attempts st) <? maxAttempts)%nat = false)
    by (apply Nat.ltb_ge; assumption).
  rewrite Hlt. apply Nat.leb_le in Hge. rewrite Hge, <- !app_assoc. reflexivity.
Qed.

End Iteration.

(** ** The loop *)

Lemma callsOf_app a b : callsOf (a ++ b) = (callsOf a ++ callsOf b)%list.
Proof. apply flat_map_app. Qed.

Lemma RunSpec_one provider base a0 req out :
  (S a0 <= maxAttempts)%nat ->
  answerOutcome a0 1 (provider base req) out ->
  RunSpec provider base a0 [req] out.
Proof.
  intros Hb Ha. constructor; simpl.
  - intros k r _ Hk. lia.
  - exists req. split; [reflexivity|]. now rewrite Nat.add_0_r.
  - lia.
Qed.

Lemma RunSpec_cons provider base a0 req e calls out :
  provider base req = inr e -> retryable e = true ->
  RunSpec provider (S base) (S a0) calls out ->
  RunSpec provider base a0 (req :: calls) out.
Proof.
  intros Hp He [Hearlier (r & Hnth & Hlast) Hbound].
  assert (Hlen : (0 < List.length calls)%nat).
  { destruct calls; [discriminate Hnth | simpl; lia]. }
  constructor; simpl.
  - intros [|k] r' Hk Hlt; simpl in Hk.
    + injection Hk as <-. rewrite Nat.add_0_r. eauto.
    + replace (base + S k)%nat with (S base + k)%nat by lia.
      apply Hearlier; [assumption | lia].
  - exists r. rewrite Nat.sub_0_r.
    destruct (List.length calls) as [|n] eqn:En; [lia|].
    simpl in Hnth, Hlast. rewrite Nat.sub_0_r in Hnth, Hlast. simpl.
    split; [assumption|].
    replace (base + S n)%nat with (S (base + n)) by lia.
    unfold answerOutcome in *.
    destruct (provider (S (base + n)) r) as [resp|e']; [assumption|].
    destruct (retryable e'); [|assumption].
    destruct Hlast as [Ho Hs]. split; [assumption | lia].
  - lia.
Qed.

Section Loop.

Variable provider : Provider.
Variables (contents : list Content) (systemInstruction : string)
          (tools : list Tool).

Lemma loop_spec fuel : forall st tr,
  (attempts st < maxAttempts)%nat ->
  (modelName st = proModel -> (S (attempts st) < maxAttempts)%nat) ->
  (maxAttempts - attempts st <= fuel)%nat ->
  exists out rest,
    loop provider fuel contents systemInstruction tools st tr
      = (Some out,
         (tr ++ Call (buildRequest (modelName st) (thinkingBudget st)
                                   contents systemInstruction tools)
             :: rest)%list)
    /\ RunSpec provider (List.length (callsOf tr)) (attempts st)
               (buildRequest (modelName st) (thinkingBudget st)
                             contents systemInstruction tools
                :: callsOf rest) out.
Proof.
  induction fuel as [|fuel IH]; intros st tr Hlt Hpro Hfuel; [lia|].
  pose proof Hlt as Hltb. apply Nat.ltb_lt in Hltb.
  cbn [loop]. rewrite Hltb. unfold bind.
  set (req := buildRequest (modelName st) (thinkingBudget st) contents
                           systemInstruction tools).
  destruct (provider (List.length (callsOf tr)) req) as [r|e] eqn:Ha.
  - rewrite (iteration_success _ _ _ _ _ _ _ Ha).
    exists (Returned (renderResponse r)), []. split; [reflexivity|].
    apply RunSpec_one; [lia|]. now rewrite Ha.
  - destruct (retryable e) eqn:He.
    + destruct (string_dec (modelName st) proModel) as [Hm|Hm].
      * rewrite (iteration_downgrade _ _ _ _ _ _ _ Ha He Hm).
        specialize (Hpro Hm).
        match goal with |- context [loop _ _ _ _ _ ?s ?t] =>
          destruct (IH s t) as (out & ext & Hrun & Hspec);
            cbn [attempts modelName]; [lia | discriminate | lia |]
        end.
        rewrite Hrun.
        eexists out, (_ :: _ :: Call _ :: ext). rewrite <- app_assoc. simpl.
        split; [reflexivity|]. fold req.
        rewrite callsOf_app, length_app, Nat.add_1_r in Hspec.
        eapply RunSpec_cons; eassumption.
      * destruct (Nat.lt_ge_cases (S (attempts st)) maxAttempts) as [Hs|Hs].
        -- rewrite (iteration_backoff _ _ _ _ _ _ _ Ha He Hm Hs).
           match goal with |- context [loop _ _ _ _ _ ?s ?t] =>
             destruct (IH s t) as (out & ext & Hrun & Hspec);
               cbn [attempts modelName]; [lia | contradiction | lia |]
           end.
           rewrite Hrun.
           eexists out, (_ :: _ :: Call _ :: ext). rewrite <- app_assoc. simpl.
           split; [reflexivity|]. fold req.
           rewrite callsOf_app, length_app, Nat.add_1_r in Hspec.
           eapply RunSpec_cons; eassumption.
        -- rewrite (iteration_exhausted _ _ _ _ _ _ _ Ha He Hm Hs).
           exists (Thrown rateLimitError), [WarnRateLimit (S (attempts st)) (modelName st)].
           split; [reflexivity|]. simpl. fold req.
           apply RunSpec_one; [lia|]. rewrite Ha. simpl. rewrite He.
           split; [reflexivity | lia].
    + rewrite (iteration_fatal _ _ _ _ _ _ _ Ha He).
      exists (Thrown e), [LogError e]. split; [reflexivity|].
      simpl. fold req. apply RunSpec_one; [lia|]. rewrite Ha. simpl.
      now rewrite He.
Qed.

End Loop.

Section LoopFuel.

Variable provider : Provider.
Variables (contents : list Content) (systemInstruction : string)
          (tools : list Tool).

Lemma loop_unfold fuel st tr :
  (attempts st < maxAttempts)%nat ->
  loop provider (S fuel) contents systemInstruction tools st tr =
  let (c, tr') := iteration provider contents systemInstruction tools st tr in
  match c with
  | Continue st' => loop provider fuel contents systemInstruction tools st' tr'
  | Return text => (Some (Returned text), tr')
  | Throw error => (Some (Thrown error), tr')
  end.
Proof.
  intros Hlt. apply Nat.ltb_lt in Hlt. cbn [loop]. rewrite Hlt. unfold bind.
  destruct (iteration provider contents systemInstruction tools st tr) as [[st'|t|e] tr'];
    reflexivity.
Qed.

Lemma loop_more_fuel fuel : forall st tr out tr',
  loop provider fuel contents systemInstruction tools st tr = (Some out, tr') ->
  loop provider (S fuel) contents systemInstruction tools st tr = (Some out, tr').
Proof.
  induction fuel as [|fuel IH]; intros st tr out tr'.
  - cbn [loop]. destruct (attempts st <? maxAttempts)%nat; [discriminate | trivial].
  - intros H. cbn [loop] in H |- *.
    destruct (attempts st <? maxAttempts)%nat; [|assumption].
    unfold bind in H |- *.
    destruct (iteration provider contents systemInstruction tools st tr)
      as [[st'|t|e] tr1]; [|assumption..].
    apply IH, H.
Qed.

Lemma loop_fuel fuel fuel' st tr out tr' :
  (fuel <= fuel')%nat ->
  loop provider fuel contents systemInstruction tools st tr = (Some out, tr') ->
  loop provider fuel' contents systemInstruction tools st tr = (Some out, tr').
Proof.
  induction 1 as [|m _ IH]; intros H; [assumption|].
  apply loop_more_fuel, IH, H.
Qed.

End LoopFuel.

(** ** The whole function *)

Lemma lastAnswer_calls provider tr req calls :
  callsOf tr = req :: calls ->
  forall r, nth_error (req :: calls) (List.length calls) = Some r ->
  lastAnswer provider tr = Some (provider (List.length calls) r).
Proof.
  intros E r Hr. unfold lastAnswer. cbv zeta. rewrite E.
  replace (List.length (req :: calls) - 1)%nat with (List.length calls)
    by (simpl; lia).
  now rewrite Hr.
Qed.

Section Run.

Variable SYSTEM_INSTRUCTIONS : Subject -> string.
Variable provider : Provider.
Variables (apiKey : option string) (history : list Message)
          (currentSubject : Subject) (thinkingLevel : ThinkingLevel)
          (useSearch : bool).

Lemma generateResponse_no_key tr :
  keyMissing apiKey = true ->
  generateResponse SYSTEM_INSTRUCTIONS provider apiKey history currentSubject
                   thinkingLevel useSearch tr
  = (Some (Returned configMessage), tr).
Proof.
  intros H. unfold generateResponse, generateResponseFuel. now rewrite H.
Qed.

Lemma generateResponse_run :
  keyMissing apiKey = false ->
  exists out rest,
    generateResponse SYSTEM_INSTRUCTIONS provider apiKey history currentSubject
                     thinkingLevel useSearch []
    = (Some out,
       Call (initialRequest SYSTEM_INSTRUCTIONS history currentSubject
                            thinkingLevel useSearch) :: rest)
    /\ RunSpec provider 0 0
         (initialRequest SYSTEM_INSTRUCTIONS history currentSubject
                         thinkingLevel useSearch :: callsOf rest) out.
Proof.
  intros H. unfold generateResponse, generateResponseFuel, initialRequest.
  rewrite H. destruct (selectModel thinkingLevel) as [m b] eqn:Es.
  cbn [fst snd].
  edestruct (loop_spec provider (mapMessagesToContent history)
               (SYSTEM_INSTRUCTIONS currentSubject)
               (if useSearch then [GoogleSearch] else [])
               maxAttempts
               {| modelName := m; thinkingBudget := b; attempts := 0;
                  delay := initialDelay |} [])
    as (out & rest & Hrun & Hspec); cbn [attempts modelName].
  - unfold maxAttempts; lia.
  - intros _. unfold maxAttempts; lia.
  - lia.
  - exists out, rest. split; assumption.
Qed.

Lemma generateResponse_fuel fuel tr :
  (maxAttempts <= fuel)%nat ->
  generateResponseFuel SYSTEM_INSTRUCTIONS provider fuel apiKey history
                       currentSubject thinkingLevel useSearch []
  = generateResponse SYSTEM_INSTRUCTIONS provider apiKey history currentSubject
                     thinkingLevel useSearch [] /\
  fst (generateResponse SYSTEM_INSTRUCTIONS provider apiKey history
                        currentSubject thinkingLevel useSearch tr) <> None.
Proof.
  intros Hf. destruct (keyMissing apiKey) eqn:Hk.
  - unfold generateResponse, generateResponseFuel. rewrite Hk.
    split; [reflexivity | discriminate].
  - split.
    + destruct (generateResponse_run Hk) as (out & rest & Hrun & _).
      rewrite Hrun. unfold generateResponse, generateResponseFuel in Hrun |- *.
      rewrite Hk in Hrun |- *. destruct (selectModel thinkingLevel) as [m b].
      eapply loop_fuel; eassumption.
    + unfold generateResponse, generateResponseFuel. rewrite Hk.
      destruct (selectModel thinkingLevel) as [m b] eqn:Es.
      edestruct (loop_spec provider (mapMessagesToContent history)
               (SYSTEM_INSTRUCTIONS currentSubject)
               (if useSearch then [GoogleSearch] else [])
               maxAttempts
               {| modelName := m; thinkingBudget := b; attempts := 0;
                  delay := initialDelay |} tr)
        as (out & rest & Hrun & _); cbn [attempts modelName];
        [unfold maxAttempts; lia | intros _; unfold maxAttempts; lia | lia |].
      rewrite Hrun. discriminate.
Qed.

End Run.

(** ** The rendered source lines against the pairs they come from *)

Lemma web_eqb_eq a b : web_eqb a b = true <-> a = b.
Proof.
  unfold web_eqb. rewrite andb_true_iff, !String.eqb_eq.
  destruct a, b; simpl. split.
  - intros [-> ->]. reflexivity.
  - intros E. injection E as -> ->. now split.
Qed.

Lemma existsb_web_In w acc : existsb (web_eqb w) acc = true <-> In w acc.
Proof.
  rewrite existsb_exists. split.
  - intros (x & Hx & E). apply web_eqb_eq in E. now subst.
  - intros H. exists w. split; [assumption | now apply web_eqb_eq].
Qed.

Lemma sourceLine_truthy w : JS.truthy (sourceLine w) = true.
Proof. reflexivity. Qed.

Lemma setAdd_map acc a :
  (forall b, In b acc -> sourceLine b = sourceLine a -> b = a) ->
  JS.setAdd (map sourceLine acc) (sourceLine a)
  = map sourceLine (spec_addPair acc a).
Proof.
  intros Hinj. unfold JS.setAdd, spec_addPair.
  destruct (existsb (web_eqb a) acc) eqn:Ew.
  - apply existsb_web_In in Ew.
    assert (H : JS.has (sourceLine a) (map sourceLine acc) = true)
      by (apply has_In, in_map, Ew).
    now rewrite H.
  - destruct (JS.has (sourceLine a) (map sourceLine acc)) eqn:Eh.
    + apply has_In, in_map_iff in Eh. destruct Eh as (b & Eb & Hb).
      rewrite (Hinj b Hb Eb) in Hb. apply existsb_web_In in Hb. congruence.
    + now rewrite map_app.
Qed.

Lemma fold_setAdd_map l : forall acc,
  (forall a b, In a (acc ++ l) -> In b (acc ++ l) ->
               sourceLine a = sourceLine b -> a = b) ->
  fold_left JS.setAdd (map sourceLine l) (map sourceLine acc)
  = map sourceLine (fold_left spec_addPair l acc).
Proof.
  induction l as [|a l IH]; intros acc Hinj; simpl; [reflexivity|].
  rewrite setAdd_map.
  - apply IH. intros x y Hx Hy. apply Hinj.
    + apply in_app_or in Hx. apply in_or_app. destruct Hx as [Hx|Hx].
      * unfold spec_addPair in Hx. destruct (existsb (web_eqb a) acc); [now left|].
        apply in_app_or in Hx. destruct Hx as [Hx|[<-|[]]]; [now left|].
        right. now left.
      * right. now right.
    + apply in_app_or in Hy. apply in_or_app. destruct Hy as [Hy|Hy].
      * unfold spec_addPair in Hy. destruct (existsb (web_eqb a) acc); [now left|].
        apply in_app_or in Hy. destruct Hy as [Hy|[<-|[]]]; [now left|].
        right. now left.
      * right. now right.
  - intros b Hb. apply Hinj; apply in_or_app; [now left | right; now left].
Qed.

Lemma renderResponse_sources r chunks :
  groundingChunksOf r = Some chunks -> websOf chunks <> [] ->
  renderResponse r
  = JS.orElse (resp_text r) fallbackText ++ sourcesHeader
    ++ JS.join JS.nl (JS.newSet (map sourceLine (websOf chunks))).
Proof.
  intros Hc Hw. unfold renderResponse. rewrite Hc, sourcesOf_webs.
  destruct chunks as [|c chunks]; [now elim Hw|].
  cbn [List.length Nat.ltb Nat.leb].
  destruct (JS.newSet (map sourceLine (websOf (c :: chunks)))) as [|x u] eqn:Eu.
  - exfalso. revert Eu. apply newSet_nonempty.
    destruct (websOf (c :: chunks)); [now elim Hw | discriminate].
  - reflexivity.
Qed.

(** * Properties of the service *)

(** C10: in the translation of the history, a part that carries both an
    inline image and a text becomes the image alone, its text discarded, and
    a part that carries neither becomes a text part with the empty string;
    no part is rejected. *)
Theorem mapMessagesToContent_part history i j msg p :
  nth_error history i = Some msg ->
  nth_error (parts msg) j = Some p ->
  exists c q,
    nth_error (mapMessagesToContent history) i = Some c
    /\ c_role c = role msg
    /\ nth_error (c_parts c) j = Some q
    /\ (forall d t, inlineData p = Some d -> text p = Some t -> q = PartInline d)
    /\ (inlineData p = None -> text p = None -> q = PartText "").
Proof.
  intros Hm Hp.
  exists {| c_role := role msg; c_parts := map mapPart (parts msg) |}, (mapPart p).
  split; [|split; [reflexivity | split; [|split]]].
  - unfold mapMessagesToContent. now rewrite nth_error_map, Hm.
  - cbn [c_parts]. now rewrite nth_error_map, Hp.
  - intros d t Hd _. unfold mapPart. rewrite Hd. now destruct d.
  - intros Hd Ht. unfold mapPart. now rewrite Hd, Ht.
Qed.

Lemma mapMessagesToContent_part_witness :
  exists c q,
    nth_error (mapMessagesToContent sampleHistory) 0 = Some c
    /\ c_role c = role sampleMessage
    /\ nth_error (c_parts c) 0 = Some q
    /\ (forall d t, inlineData samplePartBoth = Some d ->
                    text samplePartBoth = Some t -> q = PartInline d)
    /\ (inlineData samplePartBoth = None -> text samplePartBoth = None ->
        q = PartText "").
Proof.
  exact (mapMessagesToContent_part sampleHistory 0 0 sampleMessage
           samplePartBoth eq_refl eq_refl).
Defined.

(** C8, amended: a response with no text (absent or empty) and no grounding
    chunks is rendered as the fixed fallback sentence of the source,
    "I couldn't generate a text response.", never as the empty string. *)
Theorem renderResponse_fallback r :
  resp_text r = None \/ resp_text r = Some "" ->
  groundingChunksOf r = None \/ groundingChunksOf r = Some [] ->
  renderResponse r = "I couldn't generate a text response."
  /\ renderResponse r <> "".
Proof.
  intros Ht Hc.
  assert (E : renderResponse r = fallbackText).
  { unfold renderResponse.
    destruct Ht as [-> | ->], Hc as [-> | ->]; reflexivity. }
  rewrite E. split; [reflexivity | discriminate].
Qed.

Lemma renderResponse_fallback_witness :
  renderResponse emptyResponse = "I couldn't generate a text response."
  /\ renderResponse emptyResponse <> "".
Proof.
  apply (renderResponse_fallback emptyResponse).
  - right. reflexivity.
  - left. reflexivity.
Defined.

(** The fallback is not the sentence "no response generated". *)
Lemma renderResponse_fallback_not_spec_sentence :
  resp_text emptyResponse = Some ""
  /\ groundingChunksOf emptyResponse = None
  /\ renderResponse emptyResponse <> "no response generated".
Proof.
  split; [reflexivity | split; [reflexivity|]].
  vm_compute. discriminate.
Qed.

(** C9, amended: when the response carries grounding chunks with web
    references, the rendered text is the response text followed by the
    separator and heading and then one line [- [title](uri)] per reference,
    de-duplicated by exact equality of the rendered line, first seen first:
    no line occurs twice, the line of every reference occurs exactly once,
    every line is the line of some reference, and the lines of a prefix of the
    references are a prefix of the lines.  When different pairs among the
    references have different lines, this is the de-duplication by pair. *)
Theorem renderResponse_sources_unique r chunks :
  groundingChunksOf r = Some chunks ->
  websOf chunks <> [] ->
  let lines := JS.newSet (map sourceLine (websOf chunks)) in
  renderResponse r
  = JS.orElse (resp_text r) fallbackText ++ sourcesHeader ++ JS.join JS.nl lines
  /\ NoDup lines
  /\ (forall w, In w (websOf chunks) ->
                count_occ string_dec lines (sourceLine w) = 1%nat)
  /\ (forall s, In s lines -> exists w, In w (websOf chunks) /\ s = sourceLine w)
  /\ (forall p q, websOf chunks = (p ++ q)%list ->
        exists ext, lines = (JS.newSet (map sourceLine p) ++ ext)%list)
  /\ ((forall a b, In a (websOf chunks) -> In b (websOf chunks) ->
                   sourceLine a = sourceLine b -> a = b) ->
      lines = map sourceLine (spec_uniquePairs (websOf chunks))).
Proof.
  intros Hc Hw lines. split; [|split; [|split; [|split; [|split]]]].
  - now apply renderResponse_sources.
  - apply newSet_NoDup.
  - intros w Hin. apply newSet_once, in_map, Hin.
  - intros s Hs. apply newSet_In, in_map_iff in Hs.
    destruct Hs as (w & <- & Hin). now exists w.
  - intros p q E. unfold lines. rewrite E, map_app. apply newSet_prefix.
  - intros Hinj. unfold lines, JS.newSet, spec_uniquePairs.
    now apply (fold_setAdd_map (websOf chunks) []).
Qed.

Lemma renderResponse_sources_unique_witness :
  renderResponse groundedResponse
  = "x = 2" ++ sourcesHeader
    ++ "- [Quadratic equation](https://en.wikipedia.org/wiki/Quadratic_equation)"
    ++ JS.nl ++ "- [Khan Academy](https://www.khanacademy.org/math)".
Proof.
  destruct (renderResponse_sources_unique groundedResponse
              [ {| web := Some webWiki |}; {| web := None |};
                {| web := Some webKhan |}; {| web := Some webWiki |} ])
    as (Hrender & _).
  - reflexivity.
  - simpl. discriminate.
  - exact Hrender.
Defined.

(** Two different (title, uri) pairs whose rendered lines coincide give one
    line in the Sources section, where the de-duplication by pair keeps
    two. *)
Lemma renderResponse_sources_merges_pairs :
  groundingChunksOf collidingResponse
    = Some [ {| web := Some webA |}; {| web := Some webB |} ]
  /\ webA <> webB
  /\ spec_uniquePairs [webA; webB] = [webA; webB]
  /\ renderResponse collidingResponse
     = "See below." ++ sourcesHeader ++ "- [a](b](c)"
  /\ renderResponse collidingResponse
     <> "See below." ++ sourcesHeader
        ++ JS.join JS.nl (map sourceLine (spec_uniquePairs [webA; webB])).
Proof.
  split; [reflexivity|]. split; [discriminate|]. split; [reflexivity|].
  split; [reflexivity|]. vm_compute. discriminate.
Qed.

(** ** Terminal outcomes *)

Lemma terminal_unique provider tr out k k' :
  terminal provider k tr out -> terminal provider k' tr out -> k = k'.
Proof.
  destruct k, k'; simpl; trivial;
    intros (a & Ha & Hrest) (b & Hb & Hrest'); rewrite Ha in Hb;
    try discriminate Hb; injection Hb as <-;
    destruct Hrest as [Hr _]; destruct Hrest' as [Hr' _]; congruence.
Qed.

Lemma terminal_of_run provider req rest out :
  RunSpec provider 0 0 (req :: callsOf rest) out ->
  exists k, terminal provider k (Call req :: rest) out.
Proof.
  intros [_ (r & Hnth & Hlast) _].
  cbn [List.length] in Hnth, Hlast.
  replace (S (List.length (callsOf rest)) - 1)%nat
    with (List.length (callsOf rest)) in Hnth, Hlast by lia.
  pose proof (lastAnswer_calls provider (Call req :: rest) req (callsOf rest)
                eq_refl r Hnth) as Hl.
  cbn [Nat.add] in Hlast.
  destruct (provider (List.length (callsOf rest)) r) as [resp|e] eqn:Ea;
    cbn [answerOutcome] in Hlast.
  - exists Done. simpl. eauto.
  - destruct (retryable e) eqn:He.
    + destruct Hlast as [-> Hn]. exists RateLimited. simpl. exists e.
      repeat split; assumption.
    + exists Fatal. simpl. eauto.
Qed.

Ltac enter_loop :=
  rewrite loop_unfold by (cbn [attempts]; unfold maxAttempts; lia).

Ltac side_conditions :=
  cbn [modelName attempts];
  first [ reflexivity | discriminate | unfold maxAttempts; lia ].

(** Rewrites the pass of the loop body in the goal with [lem], one of the
    [iteration_*] lemmas, at the answer [H]. *)
Ltac pass_with lem H :=
  match goal with
  | |- context [iteration ?p ?c ?s ?t ?st ?tr] =>
      rewrite (lem p c s t st tr _ H) by side_conditions
  end.

Ltac pass_retry lem H R :=
  match goal with
  | |- context [iteration ?p ?c ?s ?t ?st ?tr] =>
      rewrite (lem p c s t st tr _ H R) by side_conditions
  end;
  cbn [app modelName thinkingBudget attempts delay].

(** C1, amended: with an API key configured, every call of [generateResponse]
    ends (with any fuel from [maxAttempts] on, and with the same result), and
    in exactly one of three ways, decided by the provider's answer to the
    last request: it returns the rendered text of that answer (Done), it
    throws the provider's error as it is, the error not being a retryable
    one (Fatal), or it throws the RATE_LIMIT_60 error after [maxAttempts]
    requests, the last error being retryable (RateLimited).  Every request
    before the last one failed with a retryable error. *)
Theorem generateResponse_terminal SYSTEM_INSTRUCTIONS provider apiKey history
    currentSubject thinkingLevel useSearch :
  keyMissing apiKey = false ->
  exists out tr,
    generateResponse SYSTEM_INSTRUCTIONS provider apiKey history currentSubject
                     thinkingLevel useSearch [] = (Some out, tr)
    /\ (forall fuel, (maxAttempts <= fuel)%nat ->
          generateResponseFuel SYSTEM_INSTRUCTIONS provider fuel apiKey history
                               currentSubject thinkingLevel useSearch []
          = (Some out, tr))
    /\ (exists k, terminal provider k tr out)
    /\ (forall k k', terminal provider k tr out ->
                     terminal provider k' tr out -> k = k')
    /\ (forall i req, nth_error (callsOf tr) i = Some req ->
          (S i < List.length (callsOf tr))%nat ->
          exists e, provider i req = inr e /\ retryable e = true).
Proof.
  intros Hk.
  destruct (generateResponse_run SYSTEM_INSTRUCTIONS provider apiKey history
              currentSubject thinkingLevel useSearch Hk)
    as (out & rest & Hrun & Hspec).
  exists out, (Call (initialRequest SYSTEM_INSTRUCTIONS history currentSubject
                                    thinkingLevel useSearch) :: rest).
  split; [assumption|]. split; [|split; [|split]].
  - intros fuel Hf. rewrite <- Hrun.
    now apply generateResponse_fuel.
  - eapply terminal_of_run; eassumption.
  - intros k k'. apply terminal_unique.
  - intros i req Hnth Hlt. apply (run_earlier _ _ _ _ _ Hspec i req Hnth Hlt).
Qed.

Lemma generateResponse_terminal_witness :
  exists out tr,
    generateResponse sampleInstructions providerPremiumLimited (Some "key")
                     sampleHistory MATH deep true [] = (Some out, tr)
    /\ (exists k, terminal providerPremiumLimited k tr out).
Proof.
  destruct (generateResponse_terminal sampleInstructions providerPremiumLimited
              (Some "key") sampleHistory MATH deep true eq_refl)
    as (out & tr & Hrun & _ & Hk & _).
  exists out, tr. split; [exact Hrun | exact Hk].
Defined.

(** Without an API key the call returns the configuration message, the
    provider having answered nothing, so the outcome is none of the three. *)
Lemma generateResponse_no_key_not_terminal :
  generateResponse sampleInstructions providerHealthy None sampleHistory
                   MATH none false []
  = (Some (Returned configMessage), [])
  /\ forall k, ~ terminal providerHealthy k [] (Returned configMessage).
Proof.
  split; [reflexivity|].
  intros [| |]; simpl; intros (x & Hx & _); discriminate Hx.
Qed.

(** C2, amended: when no API key is configured (the variable is absent or
    empty), [generateResponse] returns, as a normal result, the fixed
    message that the service is not configured, and does nothing else: no
    request reaches the provider. *)
Theorem generateResponse_missing_key SYSTEM_INSTRUCTIONS provider apiKey
    history currentSubject thinkingLevel useSearch :
  keyMissing apiKey = true ->
  exists tr,
    generateResponse SYSTEM_INSTRUCTIONS provider apiKey history currentSubject
                     thinkingLevel useSearch []
    = (Some (Returned
         "The AI service is not configured correctly. Please set the API Key in your dashboard."),
       tr)
    /\ callsOf tr = [] /\ tr = [].
Proof.
  intros Hk. exists []. split; [|split; reflexivity].
  now apply generateResponse_no_key.
Qed.

Lemma generateResponse_missing_key_witness :
  exists tr,
    generateResponse sampleInstructions providerHealthy (Some "") sampleHistory
                     PHYSICS moderate true []
    = (Some (Returned
         "The AI service is not configured correctly. Please set the API Key in your dashboard."),
       tr)
    /\ callsOf tr = [] /\ tr = [].
Proof.
  apply (generateResponse_missing_key sampleInstructions providerHealthy
           (Some "") sampleHistory PHYSICS moderate true).
  reflexivity.
Defined.

(** Without an API key the call does not fail, it returns a string. *)
Lemma generateResponse_missing_key_returns :
  keyMissing None = true
  /\ forall e,
       fst (generateResponse sampleInstructions providerHealthy None
              sampleHistory MATH deep false [])
       <> Some (Thrown e).
Proof.
  split; [reflexivity|]. intros e. simpl. discriminate.
Qed.

(** ** Scenarios of the retry loop *)

Section Scenarios.

Variable SYSTEM_INSTRUCTIONS : Subject -> string.
Variable provider : Provider.
Variables (apiKey : option string) (history : list Message)
          (currentSubject : Subject) (useSearch : bool).

Let contents := mapMessagesToContent history.
Let systemInstruction := SYSTEM_INSTRUCTIONS currentSubject.
Let tools := if useSearch then [GoogleSearch] else [].

Lemma generateResponse_loop thinkingLevel tr :
  keyMissing apiKey = false ->
  generateResponse SYSTEM_INSTRUCTIONS provider apiKey history currentSubject
                   thinkingLevel useSearch tr
  = loop provider maxAttempts contents systemInstruction tools
         {| modelName := fst (selectModel thinkingLevel);
            thinkingBudget := snd (selectModel thinkingLevel);
            attempts := 0; delay := initialDelay |} tr.
Proof.
  intros Hk. unfold generateResponse, generateResponseFuel. rewrite Hk.
  now destruct (selectModel thinkingLevel).
Qed.

Lemma first_fatal thinkingLevel e :
  keyMissing apiKey = false ->
  provider 0%nat (initialRequest SYSTEM_INSTRUCTIONS history currentSubject
                             thinkingLevel useSearch) = inr e ->
  retryable e = false ->
  generateResponse SYSTEM_INSTRUCTIONS provider apiKey history currentSubject
                   thinkingLevel useSearch []
  = (Some (Thrown e),
     [Call (initialRequest SYSTEM_INSTRUCTIONS history currentSubject
                           thinkingLevel useSearch); LogError e]).
Proof.
  intros Hk Ha He. rewrite generateResponse_loop by assumption.
  unfold maxAttempts at 1. enter_loop.
  now pass_retry iteration_fatal Ha He.
Qed.

Lemma always_retryable_fast thinkingLevel :
  keyMissing apiKey = false ->
  thinkingLevel <> deep ->
  (forall n req, exists e, provider n req = inr e /\ retryable e = true) ->
  let req := initialRequest SYSTEM_INSTRUCTIONS history currentSubject
                            thinkingLevel useSearch in
  generateResponse SYSTEM_INSTRUCTIONS provider apiKey history currentSubject
                   thinkingLevel useSearch []
  = (Some (Thrown rateLimitError),
     [Call req; WarnRateLimit 1 flashModel; Wait 1000;
      Call req; WarnRateLimit 2 flashModel; Wait 1500;
      Call req; WarnRateLimit 3 flashModel]).
Proof.
  intros Hk Hl Hall req. rewrite generateResponse_loop by assumption.
  assert (Em : fst (selectModel thinkingLevel) = flashModel)
    by (destruct thinkingLevel; [reflexivity | reflexivity | congruence]).
  assert (Ereq : req = buildRequest flashModel (snd (selectModel thinkingLevel))
                         contents systemInstruction tools)
    by (unfold req, initialRequest; now rewrite Em).
  rewrite Em. clearbody req. subst req.
  set (b := snd (selectModel thinkingLevel)).
  set (req := buildRequest flashModel b contents systemInstruction tools).
  destruct (Hall 0%nat req) as (e1 & H1 & R1).
  destruct (Hall 1%nat req) as (e2 & H2 & R2).
  destruct (Hall 2%nat req) as (e3 & H3 & R3).
  unfold maxAttempts at 1. enter_loop.
  pass_retry iteration_backoff H1 R1. enter_loop.
  pass_retry iteration_backoff H2 R2. enter_loop.
  pass_retry iteration_exhausted H3 R3.
  reflexivity.
Qed.

Lemma downgrade_then_success e r :
  keyMissing apiKey = false ->
  provider 0%nat (buildRequest proModel 8192 contents systemInstruction tools) = inr e ->
  retryable e = true ->
  provider 1%nat (buildRequest flashModel 0 contents systemInstruction tools) = inl r ->
  generateResponse SYSTEM_INSTRUCTIONS provider apiKey history currentSubject
                   deep useSearch []
  = (Some (Returned (renderResponse r)),
     [Call (buildRequest proModel 8192 contents systemInstruction tools);
      WarnRateLimit 1 proModel; LogSwitching;
      Call (buildRequest flashModel 0 contents systemInstruction tools)]).
Proof.
  intros Hk H1 R1 H2. rewrite generateResponse_loop by assumption.
  unfold maxAttempts at 1. cbn [selectModel fst snd]. enter_loop.
  pass_retry iteration_downgrade H1 R1. enter_loop.
  pass_with iteration_success H2.
  reflexivity.
Qed.

End Scenarios.

Lemma RunSpec_fatal provider calls out k req e :
  RunSpec provider 0 0 calls out ->
  nth_error calls k = Some req ->
  provider k req = inr e ->
  retryable e = false ->
  out = Thrown e /\ List.length calls = S k.
Proof.
  intros [Hearlier (r & Hnth & Hlast) _] Hk Ha He.
  assert (Hlt : (k < List.length calls)%nat)
    by (apply nth_error_Some; congruence).
  destruct (Nat.lt_ge_cases (S k) (List.length calls)) as [Hs|Hs].
  - destruct (Hearlier k req Hk Hs) as (e' & Ha' & He').
    cbn [Nat.add] in Ha'. congruence.
  - assert (El : List.length calls = S k) by lia.
    rewrite El in Hnth, Hlast. cbn [Nat.add] in Hlast.
    replace (S k - 1)%nat with k in Hnth, Hlast by lia.
    assert (r = req) by congruence. subst r.
    rewrite Ha in Hlast. cbn [answerOutcome] in Hlast. rewrite He in Hlast.
    now split.
Qed.

(** C3: with an API key, on the fast model (thinking level none or
    moderate) and a provider that fails every request with a retryable
    error, [generateResponse] makes exactly three requests, waits 1000 ms
    before the second and 1500 ms before the third, and throws the
    RATE_LIMIT_60 error, not the provider's. *)
Theorem retries_exhausted_on_fast_tier SYSTEM_INSTRUCTIONS provider apiKey
    history currentSubject thinkingLevel useSearch :
  keyMissing apiKey = false ->
  thinkingLevel <> deep ->
  (forall n req, exists e, provider n req = inr e /\ retryable e = true) ->
  let req := initialRequest SYSTEM_INSTRUCTIONS history currentSubject
                            thinkingLevel useSearch in
  exists tr,
    generateResponse SYSTEM_INSTRUCTIONS provider apiKey history currentSubject
                     thinkingLevel useSearch []
    = (Some (Thrown (newError "RATE_LIMIT_60")), tr)
    /\ tr = [Call req; WarnRateLimit 1 "gemini-2.5-flash"; Wait 1000;
             Call req; WarnRateLimit 2 "gemini-2.5-flash"; Wait 1500;
             Call req; WarnRateLimit 3 "gemini-2.5-flash"]
    /\ model req = "gemini-2.5-flash"
    /\ List.length (callsOf tr) = 3%nat
    /\ waitsOf tr = [1000; 1500].
Proof.
  intros Hk Hl Hall req. eexists. split.
  - apply always_retryable_fast; assumption.
  - split; [reflexivity|]. split; [|split; reflexivity].
    destruct thinkingLevel; [reflexivity | reflexivity | congruence].
Qed.

Lemma retries_exhausted_on_fast_tier_witness :
  exists tr,
    generateResponse sampleInstructions providerOverloaded (Some "key")
                     sampleHistory CHEMISTRY moderate true []
    = (Some (Thrown (newError "RATE_LIMIT_60")), tr)
    /\ List.length (callsOf tr) = 3%nat
    /\ waitsOf tr = [1000; 1500].
Proof.
  destruct (retries_exhausted_on_fast_tier sampleInstructions providerOverloaded
              (Some "key") sampleHistory CHEMISTRY moderate true)
    as (tr & Hrun & _ & _ & Hcalls & Hwaits).
  - reflexivity.
  - discriminate.
  - intros n req. exists error503. split; reflexivity.
  - exists tr. split; [exact Hrun | split; [exact Hcalls | exact Hwaits]].
Defined.

(** C4: a pass of the loop body that meets a retryable error while the
    premium model is selected continues at once, without waiting, with the
    fast model, the budget 0 and the delay back at 1000 ms.  With the deep
    thinking level, a provider that fails the first (premium) request with a
    retryable error and answers the second (fast, no thinking budget)
    request makes [generateResponse] return the rendered answer after exactly
    one switch and two requests. *)
Theorem premium_downgrade (SYSTEM_INSTRUCTIONS : Subject -> string)
    (provider : Provider) (apiKey : option string) (history : list Message)
    (currentSubject : Subject) (useSearch : bool) (e : JsError) :
  let contents := mapMessagesToContent history in
  let systemInstruction := SYSTEM_INSTRUCTIONS currentSubject in
  let tools := if useSearch then [GoogleSearch] else [] in
  let reqPro := buildRequest proModel 8192 contents systemInstruction tools in
  let reqFlash := buildRequest flashModel 0 contents systemInstruction tools in
  keyMissing apiKey = false ->
  provider 0%nat reqPro = inr e ->
  retryable e = true ->
  (forall st tr e',
     modelName st = proModel ->
     provider (List.length (callsOf tr))
              (buildRequest (modelName st) (thinkingBudget st) contents
                            systemInstruction tools) = inr e' ->
     retryable e' = true ->
     iteration provider contents systemInstruction tools st tr
     = (Continue {| modelName := "gemini-2.5-flash"; thinkingBudget := 0;
                    attempts := S (attempts st); delay := 1000 |},
        (tr ++ [Call (buildRequest (modelName st) (thinkingBudget st) contents
                                   systemInstruction tools);
                WarnRateLimit (S (attempts st)) "gemini-3-pro-preview";
                LogSwitching])%list))
  /\ (exists out rest,
        generateResponse SYSTEM_INSTRUCTIONS provider apiKey history
                         currentSubject deep useSearch []
        = (Some out,
           Call reqPro :: WarnRateLimit 1 "gemini-3-pro-preview"
             :: LogSwitching :: Call reqFlash :: rest))
  /\ model reqFlash = "gemini-2.5-flash"
  /\ thinkingConfig (config reqFlash) = None
  /\ (forall r,
        provider 1%nat reqFlash = inl r ->
        exists tr,
          generateResponse SYSTEM_INSTRUCTIONS provider apiKey history
                           currentSubject deep useSearch []
          = (Some (Returned (renderResponse r)), tr)
          /\ tr = [Call reqPro; WarnRateLimit 1 "gemini-3-pro-preview";
                   LogSwitching; Call reqFlash]
          /\ switchesOf tr = 1%nat
          /\ waitsOf tr = []).
Proof.
  intros contents systemInstruction tools reqPro reqFlash Hk H1 R1.
  split; [|split; [|split; [reflexivity | split; [reflexivity|]]]].
  - intros st tr e' Hm Ha He.
    now rewrite (iteration_downgrade provider contents systemInstruction tools
                   st tr e' Ha He Hm).
  - rewrite generateResponse_loop by assumption.
    unfold maxAttempts at 1. cbn [selectModel fst snd]. enter_loop.
    pass_retry iteration_downgrade H1 R1.
    match goal with |- context [loop _ _ _ _ _ ?s ?t] =>
      destruct (loop_spec provider contents systemInstruction tools 2 s t)
        as (out & rest & Hrun & _); cbn [attempts modelName];
        [unfold maxAttempts; lia | discriminate | unfold maxAttempts; lia |]
    end.
    exists out, rest. exact Hrun.
  - intros r H2. eexists. split.
    + apply downgrade_then_success with (e := e); assumption.
    + split; [reflexivity | split; reflexivity].
Qed.

Lemma premium_downgrade_witness :
  exists tr,
    generateResponse sampleInstructions providerPremiumLimited (Some "key")
                     sampleHistory MATH deep false []
    = (Some (Returned (renderResponse sampleResponse)), tr)
    /\ switchesOf tr = 1%nat
    /\ waitsOf tr = [].
Proof.
  destruct (premium_downgrade sampleInstructions providerPremiumLimited
              (Some "key") sampleHistory MATH false error429
              eq_refl eq_refl eq_refl)
    as (_ & _ & _ & _ & Hok).
  destruct (Hok sampleResponse eq_refl) as (tr & Hrun & _ & Hsw & Hw).
  exists tr. split; [exact Hrun | split; [exact Hsw | exact Hw]].
Defined.

(** C5: a provider error that is not retryable (its lowered message
    contains none of 429, quota, limit, 503, overloaded) ends the call where
    it occurs: [generateResponse] throws that very error and the failed
    request is the last one.  When the first request fails so, the provider
    has been called exactly once and nothing was waited for. *)
Theorem fatal_error_propagates SYSTEM_INSTRUCTIONS provider apiKey history
    currentSubject thinkingLevel useSearch :
  let req := initialRequest SYSTEM_INSTRUCTIONS history currentSubject
                            thinkingLevel useSearch in
  exists out tr,
    generateResponse SYSTEM_INSTRUCTIONS provider apiKey history
                     currentSubject thinkingLevel useSearch []
    = (Some out, tr)
    /\ (forall k r e,
          nth_error (callsOf tr) k = Some r ->
          provider k r = inr e -> retryable e = false ->
          out = Thrown e /\ List.length (callsOf tr) = S k)
    /\ (forall e,
          keyMissing apiKey = false ->
          provider 0%nat req = inr e -> retryable e = false ->
          out = Thrown e /\ tr = [Call req; LogError e]
          /\ callsOf tr = [req] /\ waitsOf tr = []).
Proof.
  intros req. destruct (keyMissing apiKey) eqn:Hk.
  - exists (Returned configMessage), [].
    split; [now apply generateResponse_no_key|]. split.
    + intros [|k] r e Hnth; discriminate Hnth.
    + intros e Hc. discriminate Hc.
  - destruct (generateResponse_run SYSTEM_INSTRUCTIONS provider apiKey history
                currentSubject thinkingLevel useSearch Hk)
      as (out & rest & Hrun & Hspec).
    exists out, (Call req :: rest). split; [exact Hrun|]. split.
    + intros k r e Hnth Ha He.
      apply (RunSpec_fatal provider (req :: callsOf rest) out k r e Hspec Hnth Ha He).
    + intros e _ Ha He.
      pose proof (first_fatal SYSTEM_INSTRUCTIONS provider apiKey history
                    currentSubject useSearch thinkingLevel e Hk Ha He) as Hf.
      fold req in Hf. rewrite Hf in Hrun. injection Hrun as <- <-.
      repeat split.
Qed.

Lemma fatal_error_propagates_witness :
  exists out tr,
    generateResponse sampleInstructions providerMalformed (Some "key")
                     sampleHistory ENGLISH deep true []
    = (Some out, tr)
    /\ out = Thrown error400
    /\ tr = [Call (initialRequest sampleInstructions sampleHistory ENGLISH
                                  deep true);
             LogError error400].
Proof.
  destruct (fatal_error_propagates sampleInstructions providerMalformed
              (Some "key") sampleHistory ENGLISH deep true)
    as (out & tr & Hrun & _ & Hfirst).
  destruct (Hfirst error400 eq_refl eq_refl eq_refl) as (Ho & Ht & _).
  exists out, tr. split; [exact Hrun | split; [exact Ho | exact Ht]].
Defined.

(** C6: with an API key, the first request sent carries the model and the
    reasoning budget of the table (none: the fast model and no thinking
    configuration, the budget being 0; moderate: the fast model and budget
    2048; deep: the premium model and budget 8192), the translated history,
    the system instruction of the subject, and the tools field, which is the
    one-element list with the web search tool when [useSearch] is true and is
    absent, not an empty list, when it is false. *)
Theorem first_request_follows_table SYSTEM_INSTRUCTIONS provider apiKey history
    currentSubject thinkingLevel (useSearch : bool) :
  keyMissing apiKey = false ->
  exists out req rest,
    generateResponse SYSTEM_INSTRUCTIONS provider apiKey history currentSubject
                     thinkingLevel useSearch []
    = (Some out, Call req :: rest)
    /\ selectModel thinkingLevel
       = match thinkingLevel with
         | none => ("gemini-2.5-flash", 0%Z)
         | moderate => ("gemini-2.5-flash", 2048%Z)
         | deep => ("gemini-3-pro-preview", 8192%Z)
         end
    /\ model req = fst (selectModel thinkingLevel)
    /\ thinkingConfig (config req)
       = match thinkingLevel with
         | none => None
         | moderate => Some 2048%Z
         | deep => Some 8192%Z
         end
    /\ (useSearch = true -> tools (config req) = Some [GoogleSearch])
    /\ (useSearch = false -> tools (config req) = None)
    /\ (In GoogleSearch (match tools (config req) with Some l => l | None => [] end)
        <-> useSearch = true)
    /\ contents req = mapMessagesToContent history
    /\ systemInstruction (config req) = SYSTEM_INSTRUCTIONS currentSubject.
Proof.
  intros Hk.
  destruct (generateResponse_run SYSTEM_INSTRUCTIONS provider apiKey history
              currentSubject thinkingLevel useSearch Hk)
    as (out & rest & Hrun & _).
  exists out, (initialRequest SYSTEM_INSTRUCTIONS history currentSubject
                              thinkingLevel useSearch), rest.
  split; [exact Hrun|].
  split; [now destruct thinkingLevel|].
  split; [reflexivity|].
  split; [now destruct thinkingLevel|].
  split; [now intros ->|].
  split; [now intros ->|].
  split; [|split; reflexivity].
  destruct useSearch; simpl; intuition congruence.
Qed.

Lemma first_request_follows_table_witness :
  exists out req rest,
    generateResponse sampleInstructions providerHealthy (Some "key")
                     sampleHistory GENERAL moderate false []
    = (Some out, Call req :: rest)
    /\ model req = "gemini-2.5-flash"
    /\ thinkingConfig (config req) = Some 2048%Z
    /\ tools (config req) = None.
Proof.
  destruct (first_request_follows_table sampleInstructions providerHealthy
              (Some "key") sampleHistory GENERAL moderate false eq_refl)
    as (out & req & rest & Hrun & _ & Hm & Hb & _ & Ht & _).
  exists out, req, rest.
  split; [exact Hrun | split; [exact Hm | split; [exact Hb | exact (Ht eq_refl)]]].
Defined.

(** C7, amended: [generateResponse] does not check the history, and an
    empty history or a message without parts raises no failure of its own.
    Without an API key the call returns the configuration message and sends
    nothing, as for any history.  With an API key the history is translated
    as it is (no message gives no content entry, a message without parts
    gives an entry without parts) and sent to the provider, whose answers
    decide the outcome as for any other history. *)
Theorem invalid_history_is_sent SYSTEM_INSTRUCTIONS provider apiKey history
    currentSubject thinkingLevel useSearch :
  history = [] \/ (exists m, In m history /\ parts m = []) ->
  if keyMissing apiKey
  then
    generateResponse SYSTEM_INSTRUCTIONS provider apiKey history currentSubject
                     thinkingLevel useSearch []
    = (Some (Returned configMessage), [])
  else
    exists out req rest,
      generateResponse SYSTEM_INSTRUCTIONS provider apiKey history
                       currentSubject thinkingLevel useSearch []
      = (Some out, Call req :: rest)
      /\ contents req = mapMessagesToContent history
      /\ List.length (contents req) = List.length history
      /\ (history = [] -> contents req = [])
      /\ (forall m, In m history -> parts m = [] ->
            In {| c_role := role m; c_parts := [] |} (contents req))
      /\ (exists k, terminal provider k (Call req :: rest) out).
Proof.
  intros _. destruct (keyMissing apiKey) eqn:Hk.
  - now apply generateResponse_no_key.
  - destruct (generateResponse_run SYSTEM_INSTRUCTIONS provider apiKey history
                currentSubject thinkingLevel useSearch Hk)
      as (out & rest & Hrun & Hspec).
    exists out, (initialRequest SYSTEM_INSTRUCTIONS history currentSubject
                                thinkingLevel useSearch), rest.
    split; [exact Hrun|]. split; [reflexivity|].
    split; [apply length_map|].
    split; [now intros ->|].
    split; [|eapply terminal_of_run; eassumption].
    intros m Hin Hp. cbn [contents initialRequest buildRequest].
    unfold mapMessagesToContent. apply in_map_iff. exists m.
    split; [now rewrite Hp | assumption].
Qed.

Lemma invalid_history_is_sent_witness :
  exists out req rest,
    generateResponse sampleInstructions providerHealthy (Some "key") []
                     MATH none false []
    = (Some out, Call req :: rest)
    /\ contents req = [].
Proof.
  destruct (invalid_history_is_sent sampleInstructions providerHealthy
              (Some "key") [] MATH none false (or_introl eq_refl))
    as (out & req & rest & Hrun & _ & _ & He & _).
  exists out, req, rest. split; [exact Hrun | exact (He eq_refl)].
Defined.

(** An empty history, and a history whose message has no parts, reach the
    provider, and its answer is returned. *)
Lemma empty_history_reaches_provider :
  generateResponse sampleInstructions providerHealthy (Some "key") []
                   MATH none false []
  = (Some (Returned "x = 2"),
     [Call {| model := "gemini-2.5-flash"; contents := [];
              config := {| systemInstruction := sampleInstructions MATH;
                           thinkingConfig := None; tools := None |} |}])
  /\ generateResponse sampleInstructions providerHealthy (Some "key")
       [ {| role := RoleUser; parts := []; timestamp := 0; isError := None |} ]
       MATH none false []
     = (Some (Returned "x = 2"),
        [Call {| model := "gemini-2.5-flash";
                 contents := [ {| c_role := RoleUser; c_parts := [] |} ];
                 config := {| systemInstruction := sampleInstructions MATH;
                              thinkingConfig := None; tools := None |} |}]).
Proof. split; reflexivity. Qed.

(** * Further properties *)

(** ** The shape of a run *)

Lemma waitsOf_app a b : waitsOf (a ++ b) = (waitsOf a ++ waitsOf b)%list.
Proof. apply flat_map_app. Qed.

Lemma switchesOf_app a b : switchesOf (a ++ b) = (switchesOf a + switchesOf b)%nat.
Proof. unfold switchesOf. now rewrite filter_app, length_app. Qed.

Record RunShape (contents : list Content) (systemInstruction : string)
    (tools : list Tool) (st : LoopState) (ext : list Event) : Prop := {
  shape_calls : exists n,
    callsOf ext
    = buildRequest (modelName st) (thinkingBudget st) contents
                   systemInstruction tools
      :: repeat (laterRequest contents systemInstruction tools st) n;
  shape_waits : waitsOf ext = schedule (delay st) (List.length (waitsOf ext));
  shape_count :
    List.length (callsOf ext)
    = (List.length (waitsOf ext) + switchesOf ext + 1)%nat;
  shape_switch :
    (switchesOf ext <= 1)%nat
    /\ (modelName st <> proModel -> switchesOf ext = 0%nat)
}.

Section LoopShape.

Variable provider : Provider.
Variables (contents : list Content) (systemInstruction : string)
          (tools : list Tool).

Lemma laterRequest_not_pro st :
  modelName st <> proModel ->
  laterRequest contents systemInstruction tools st
  = buildRequest (modelName st) (thinkingBudget st) contents
                 systemInstruction tools.
Proof.
  intros Hm. unfold laterRequest. apply String.eqb_neq in Hm. now rewrite Hm.
Qed.

Lemma RunShape_one st tail :
  callsOf tail = [] -> waitsOf tail = [] -> switchesOf tail = 0%nat ->
  RunShape contents systemInstruction tools st
    (Call (buildRequest (modelName st) (thinkingBudget st) contents
                        systemInstruction tools) :: tail).
Proof.
  intros Hc Hw Hs. constructor.
  - exists 0%nat.
    change (callsOf (Call ?r :: tail)) with (r :: callsOf tail). now rewrite Hc.
  - change (waitsOf (Call ?r :: tail)) with (waitsOf tail). now rewrite Hw.
  - change (callsOf (Call ?r :: tail)) with (r :: callsOf tail).
    change (waitsOf (Call ?r :: tail)) with (waitsOf tail).
    change (switchesOf (Call ?r :: tail)) with (switchesOf tail).
    now rewrite Hc, Hw, Hs.
  - change (switchesOf (Call ?r :: tail)) with (switchesOf tail).
    rewrite Hs. split; [lia | reflexivity].
Qed.

Lemma loop_shape fuel : forall st tr,
  (attempts st < maxAttempts)%nat ->
  (modelName st = proModel ->
   (S (attempts st) < maxAttempts)%nat /\ delay st = 1000) ->
  (maxAttempts - attempts st <= fuel)%nat ->
  exists out ext,
    loop provider fuel contents systemInstruction tools st tr
      = (Some out, (tr ++ ext)%list)
    /\ RunShape contents systemInstruction tools st ext.
Proof.
  induction fuel as [|fuel IH]; intros st tr Hlt Hpro Hfuel; [lia|].
  rewrite loop_unfold by assumption.
  set (req := buildRequest (modelName st) (thinkingBudget st) contents
                           systemInstruction tools).
  destruct (provider (List.length (callsOf tr)) req) as [r|e] eqn:Ha.
  - rewrite (iteration_success _ _ _ _ _ _ _ Ha).
    exists (Returned (renderResponse r)), [Call req]. split; [reflexivity|].
    now apply RunShape_one.
  - destruct (retryable e) eqn:He.
    + destruct (string_dec (modelName st) proModel) as [Hm|Hm].
      * rewrite (iteration_downgrade _ _ _ _ _ _ _ Ha He Hm).
        destruct (Hpro Hm) as [Hs Hd].
        match goal with |- context [loop _ _ _ _ _ ?s ?t] =>
          destruct (IH s t) as (out & ext & Hrun & [Hc Hw Hn [_ Hz]]);
            cbn [attempts modelName delay thinkingBudget] in *;
            [lia | discriminate | lia |]
        end.
        rewrite Hrun. fold req.
        exists out, (Call req :: WarnRateLimit (S (attempts st)) proModel
                       :: LogSwitching :: ext).
        rewrite <- app_assoc. split; [reflexivity|].
        specialize (Hz ltac:(discriminate)).
        assert (El : laterRequest contents systemInstruction tools st
                     = buildRequest flashModel 0 contents systemInstruction tools).
        { unfold laterRequest. now rewrite Hm. }
        rewrite laterRequest_not_pro in Hc by (cbn [modelName]; discriminate).
        cbn [modelName thinkingBudget] in Hc.
        constructor.
        -- destruct Hc as (n & Hc). exists (S n).
           change (callsOf (Call req :: ?a :: ?b :: ext)) with (req :: callsOf ext).
           fold req. now rewrite El, Hc.
        -- change (waitsOf (Call req :: ?a :: ?b :: ext)) with (waitsOf ext).
           now rewrite Hd.
        -- change (callsOf (Call req :: ?a :: ?b :: ext)) with (req :: callsOf ext).
           change (waitsOf (Call req :: ?a :: ?b :: ext)) with (waitsOf ext).
           change (switchesOf (Call req :: ?a :: ?b :: ext))
             with (S (switchesOf ext)).
           cbn [List.length]. lia.
        -- change (switchesOf (Call req :: ?a :: ?b :: ext))
             with (S (switchesOf ext)).
           split; [lia | contradiction].
      * destruct (Nat.lt_ge_cases (S (attempts st)) maxAttempts) as [Hs|Hs].
        -- rewrite (iteration_backoff _ _ _ _ _ _ _ Ha He Hm Hs).
           match goal with |- context [loop _ _ _ _ _ ?s ?t] =>
             destruct (IH s t) as (out & ext & Hrun & [Hc Hw Hn [_ Hz]]);
               cbn [attempts modelName delay thinkingBudget] in *;
               [lia | contradiction | lia |]
           end.
           rewrite Hrun. fold req.
           exists out, (Call req :: WarnRateLimit (S (attempts st)) (modelName st)
                          :: Wait (delay st) :: ext).
           rewrite <- app_assoc. split; [reflexivity|].
           specialize (Hz Hm).
           rewrite laterRequest_not_pro in Hc by (cbn [modelName]; assumption).
           cbn [modelName thinkingBudget] in Hc. fold req in Hc.
           constructor.
           ++ destruct Hc as (n & Hc). exists (S n).
              change (callsOf (Call req :: ?a :: ?b :: ext)) with (req :: callsOf ext).
              fold req. rewrite (laterRequest_not_pro st Hm). fold req.
              now rewrite Hc.
           ++ change (waitsOf (Call req :: ?a :: Wait ?d :: ext))
                with (d :: waitsOf ext).
              cbn [List.length schedule]. now rewrite <- Hw.
           ++ change (callsOf (Call req :: ?a :: ?b :: ext)) with (req :: callsOf ext).
              change (waitsOf (Call req :: ?a :: Wait ?d :: ext))
                with (d :: waitsOf ext).
              change (switchesOf (Call req :: ?a :: ?b :: ext))
                with (switchesOf ext).
              cbn [List.length]. lia.
           ++ change (switchesOf (Call req :: ?a :: ?b :: ext))
                with (switchesOf ext).
              split; [lia | intros _; assumption].
        -- rewrite (iteration_exhausted _ _ _ _ _ _ _ Ha He Hm Hs).
           exists (Thrown rateLimitError),
             [Call req; WarnRateLimit (S (attempts st)) (modelName st)].
           split; [reflexivity|]. now apply RunShape_one.
    + rewrite (iteration_fatal _ _ _ _ _ _ _ Ha He).
      exists (Thrown e), [Call req; LogError e]. split; [reflexivity|].
      now apply RunShape_one.
Qed.

End LoopShape.

Section LoopPasses.

Variable provider : Provider.
Variables (contents : list Content) (systemInstruction : string)
          (tools : list Tool).

Lemma loop_passes fuel : forall st tr,
  (attempts st < maxAttempts)%nat ->
  (modelName st = proModel -> (S (attempts st) < maxAttempts)%nat) ->
  (maxAttempts - attempts st <= fuel)%nat ->
  exists out ext,
    loop provider fuel contents systemInstruction tools st tr
      = (Some out, (tr ++ ext)%list)
    /\ Passes ext.
Proof.
  induction fuel as [|fuel IH]; intros st tr Hlt Hpro Hfuel; [lia|].
  rewrite loop_unfold by assumption.
  set (req := buildRequest (modelName st) (thinkingBudget st) contents
                           systemInstruction tools).
  destruct (provider (List.length (callsOf tr)) req) as [r|e] eqn:Ha.
  - rewrite (iteration_success _ _ _ _ _ _ _ Ha).
    exists (Returned (renderResponse r)), [Call req].
    split; [reflexivity | constructor].
  - destruct (retryable e) eqn:He.
    + destruct (string_dec (modelName st) proModel) as [Hm|Hm].
      * rewrite (iteration_downgrade _ _ _ _ _ _ _ Ha He Hm).
        specialize (Hpro Hm).
        match goal with |- context [loop _ _ _ _ _ ?s ?t] =>
          destruct (IH s t) as (out & ext & Hrun & Hp);
            cbn [attempts modelName]; [lia | discriminate | lia |]
        end.
        rewrite Hrun. fold req.
        exists out, (Call req :: WarnRateLimit (S (attempts st)) proModel
                       :: LogSwitching :: ext).
        rewrite <- app_assoc. split; [reflexivity | now constructor].
      * destruct (Nat.lt_ge_cases (S (attempts st)) maxAttempts) as [Hs|Hs].
        -- rewrite (iteration_backoff _ _ _ _ _ _ _ Ha He Hm Hs).
           match goal with |- context [loop _ _ _ _ _ ?s ?t] =>
             destruct (IH s t) as (out & ext & Hrun & Hp);
               cbn [attempts modelName]; [lia | contradiction | lia |]
           end.
           rewrite Hrun. fold req.
           exists out, (Call req :: WarnRateLimit (S (attempts st)) (modelName st)
                          :: Wait (delay st) :: ext).
           rewrite <- app_assoc. split; [reflexivity | now constructor].
        -- rewrite (iteration_exhausted _ _ _ _ _ _ _ Ha He Hm Hs).
           exists (Thrown rateLimitError),
             [Call req; WarnRateLimit (S (attempts st)) (modelName st)].
           split; [reflexivity | constructor].
    + rewrite (iteration_fatal _ _ _ _ _ _ _ Ha He).
      exists (Thrown e), [Call req; LogError e].
      split; [reflexivity | constructor].
Qed.

End LoopPasses.

Section RunShapeOfService.

Variable SYSTEM_INSTRUCTIONS : Subject -> string.
Variable provider : Provider.
Variables (apiKey : option string) (history : list Message)
          (currentSubject : Subject) (thinkingLevel : ThinkingLevel)
          (useSearch : bool).

Lemma generateResponse_shape :
  keyMissing apiKey = false ->
  exists out ext,
    generateResponse SYSTEM_INSTRUCTIONS provider apiKey history currentSubject
                     thinkingLevel useSearch [] = (Some out, ext)
    /\ RunShape (mapMessagesToContent history)
                (SYSTEM_INSTRUCTIONS currentSubject)
                (if useSearch then [GoogleSearch] else [])
                {| modelName := fst (selectModel thinkingLevel);
                   thinkingBudget := snd (selectModel thinkingLevel);
                   attempts := 0; delay := initialDelay |} ext.
Proof.
  intros Hk. rewrite generateResponse_loop by assumption.
  apply (loop_shape provider (mapMessagesToContent history)
           (SYSTEM_INSTRUCTIONS currentSubject)
           (if useSearch then [GoogleSearch] else []) maxAttempts _ []);
    cbn [attempts modelName delay].
  - unfold maxAttempts; lia.
  - intros _. split; [unfold maxAttempts; lia | reflexivity].
  - lia.
Qed.

Lemma generateResponse_passes :
  keyMissing apiKey = false ->
  exists out ext,
    generateResponse SYSTEM_INSTRUCTIONS provider apiKey history currentSubject
                     thinkingLevel useSearch [] = (Some out, ext)
    /\ Passes ext.
Proof.
  intros Hk. rewrite generateResponse_loop by assumption.
  apply (loop_passes provider (mapMessagesToContent history)
           (SYSTEM_INSTRUCTIONS currentSubject)
           (if useSearch then [GoogleSearch] else []) maxAttempts _ []);
    cbn [attempts modelName].
  - unfold maxAttempts; lia.
  - intros _. unfold maxAttempts; lia.
  - lia.
Qed.

End RunShapeOfService.

Lemma schedule_initial n :
  (n <= 2)%nat ->
  schedule initialDelay n = [] \/ schedule initialDelay n = [1000]
  \/ schedule initialDelay n = [1000; 1500].
Proof.
  intros Hn. destruct n as [|[|[|n]]]; [now left | right; now left | | lia].
  right. right. reflexivity.
Qed.

(** X1: whatever the provider answers, a call of [generateResponse] sends at
    most three requests (none without an API key) and waits at most twice,
    for 1000 ms and then 1500 ms.  With a key its trace is a sequence of
    passes: every request but the last is followed by the warning and then by
    exactly one wait or one switch of model, before the next request; the
    last request is followed by no wait and no switch. *)
Theorem requests_and_waits_bounded SYSTEM_INSTRUCTIONS provider apiKey history
    currentSubject thinkingLevel useSearch :
  exists out tr,
    generateResponse SYSTEM_INSTRUCTIONS provider apiKey history currentSubject
                     thinkingLevel useSearch [] = (Some out, tr)
    /\ (List.length (callsOf tr) <= 3)%nat
    /\ (if keyMissing apiKey then tr = []
        else Passes tr
             /\ List.length (callsOf tr)
                = (List.length (waitsOf tr) + switchesOf tr + 1)%nat)
    /\ (waitsOf tr = [] \/ waitsOf tr = [1000] \/ waitsOf tr = [1000; 1500]).
Proof.
  destruct (keyMissing apiKey) eqn:Hk.
  - exists (Returned configMessage), [].
    split; [now apply generateResponse_no_key|].
    split; [simpl; lia|]. split; [reflexivity | now left].
  - destruct (generateResponse_run SYSTEM_INSTRUCTIONS provider apiKey history
                currentSubject thinkingLevel useSearch Hk)
      as (out & rest & Hrun & [_ _ Hb]).
    destruct (generateResponse_shape SYSTEM_INSTRUCTIONS provider apiKey history
                currentSubject thinkingLevel useSearch Hk)
      as (out' & ext & Hrun' & [_ Hw Hn _]).
    destruct (generateResponse_passes SYSTEM_INSTRUCTIONS provider apiKey history
                currentSubject thinkingLevel useSearch Hk)
      as (out'' & ext' & Hrun'' & Hp).
    rewrite Hrun in Hrun', Hrun''.
    injection Hrun' as <- <-. injection Hrun'' as <- <-.
    eexists out, _. split; [exact Hrun|].
    change (callsOf (Call ?r :: rest)) with (r :: callsOf rest) in *.
    cbn [Nat.add delay] in Hb, Hw.
    split; [exact Hb|]. split; [split; [exact Hp | exact Hn]|].
    rewrite Hw. apply schedule_initial. unfold maxAttempts in Hb. lia.
Qed.

(** X2: with an API key, all requests of one call carry the same translated
    history, system instruction and tools.  The first is built from the
    chosen thinking level; every later one repeats it, except at level deep,
    where every later one asks the fast model without thinking budget.  The
    model is switched at most once, and never at the levels none and
    moderate. *)
Theorem requests_of_a_run SYSTEM_INSTRUCTIONS provider apiKey history
    currentSubject thinkingLevel (useSearch : bool) :
  keyMissing apiKey = false ->
  let translated := mapMessagesToContent history in
  let instruction := SYSTEM_INSTRUCTIONS currentSubject in
  let toolList := if useSearch then [GoogleSearch] else [] in
  let first := initialRequest SYSTEM_INSTRUCTIONS history currentSubject
                              thinkingLevel useSearch in
  let later := match thinkingLevel with
               | deep => buildRequest flashModel 0 translated instruction toolList
               | _ => first
               end in
  exists out tr n,
    generateResponse SYSTEM_INSTRUCTIONS provider apiKey history currentSubject
                     thinkingLevel useSearch [] = (Some out, tr)
    /\ callsOf tr = first :: repeat later n
    /\ (forall r, In r (callsOf tr) ->
          contents r = translated
          /\ systemInstruction (config r) = instruction
          /\ tools (config r)
             = if useSearch then Some [GoogleSearch] else None)
    /\ (switchesOf tr <= 1)%nat
    /\ (thinkingLevel <> deep -> switchesOf tr = 0%nat).
Proof.
  intros Hk translated instruction toolList first later.
  destruct (generateResponse_shape SYSTEM_INSTRUCTIONS provider apiKey history
              currentSubject thinkingLevel useSearch Hk)
    as (out & tr & Hrun & [(n & Hc) _ _ [Hs Hz]]).
  exists out, tr, n. split; [exact Hrun|].
  assert (El : laterRequest translated instruction toolList
                 {| modelName := fst (selectModel thinkingLevel);
                    thinkingBudget := snd (selectModel thinkingLevel);
                    attempts := 0; delay := initialDelay |} = later).
  { unfold later, first, initialRequest. now destruct thinkingLevel. }
  fold translated instruction toolList in Hc. rewrite El in Hc.
  cbn [modelName thinkingBudget] in Hc. split; [exact Hc|]. split; [|split].
  - intros r Hr. rewrite Hc in Hr. destruct Hr as [<- | Hr].
    + unfold first, initialRequest, toolList. now destruct useSearch.
    + apply repeat_spec in Hr. subst r. unfold later, first, initialRequest, toolList.
      destruct thinkingLevel, useSearch; repeat split.
  - exact Hs.
  - intros Hl. apply Hz. cbn [modelName].
    destruct thinkingLevel; [discriminate | discriminate | congruence].
Qed.

Lemma requests_of_a_run_witness :
  exists out tr n,
    generateResponse sampleInstructions providerOverloaded (Some "key")
                     sampleHistory MATH deep true [] = (Some out, tr)
    /\ callsOf tr
       = initialRequest sampleInstructions sampleHistory MATH deep true
         :: repeat (buildRequest flashModel 0 (mapMessagesToContent sampleHistory)
                                 (sampleInstructions MATH) [GoogleSearch]) n
    /\ (switchesOf tr <= 1)%nat.
Proof.
  destruct (requests_of_a_run sampleInstructions providerOverloaded (Some "key")
              sampleHistory MATH deep true eq_refl)
    as (out & tr & n & Hrun & Hc & _ & Hs & _).
  exists out, tr, n. split; [exact Hrun | split; [exact Hc | exact Hs]].
Defined.

(** ** More scenarios *)

Section MoreScenarios.

Variable SYSTEM_INSTRUCTIONS : Subject -> string.
Variable provider : Provider.
Variables (apiKey : option string) (history : list Message)
          (currentSubject : Subject) (useSearch : bool).

Let contents := mapMessagesToContent history.
Let systemInstruction := SYSTEM_INSTRUCTIONS currentSubject.
Let tools := if useSearch then [GoogleSearch] else [].

Lemma always_retryable_deep :
  keyMissing apiKey = false ->
  (forall n req, exists e, provider n req = inr e /\ retryable e = true) ->
  generateResponse SYSTEM_INSTRUCTIONS provider apiKey history currentSubject
                   deep useSearch []
  = (Some (Thrown rateLimitError),
     [Call (buildRequest proModel 8192 contents systemInstruction tools);
      WarnRateLimit 1 proModel; LogSwitching;
      Call (buildRequest flashModel 0 contents systemInstruction tools);
      WarnRateLimit 2 flashModel; Wait 1000;
      Call (buildRequest flashModel 0 contents systemInstruction tools);
      WarnRateLimit 3 flashModel]).
Proof.
  intros Hk Hall. rewrite generateResponse_loop by assumption.
  cbn [selectModel fst snd].
  destruct (Hall 0%nat (buildRequest proModel 8192 contents systemInstruction tools))
    as (e1 & H1 & R1).
  destruct (Hall 1%nat (buildRequest flashModel 0 contents systemInstruction tools))
    as (e2 & H2 & R2).
  destruct (Hall 2%nat (buildRequest flashModel 0 contents systemInstruction tools))
    as (e3 & H3 & R3).
  unfold maxAttempts at 1. enter_loop.
  pass_retry iteration_downgrade H1 R1. enter_loop.
  pass_retry iteration_backoff H2 R2. enter_loop.
  pass_retry iteration_exhausted H3 R3.
  reflexivity.
Qed.

Lemma fast_recovers_after_one thinkingLevel e1 r :
  keyMissing apiKey = false ->
  thinkingLevel <> deep ->
  let req := initialRequest SYSTEM_INSTRUCTIONS history currentSubject
                            thinkingLevel useSearch in
  provider 0%nat req = inr e1 -> retryable e1 = true ->
  provider 1%nat req = inl r ->
  generateResponse SYSTEM_INSTRUCTIONS provider apiKey history currentSubject
                   thinkingLevel useSearch []
  = (Some (Returned (renderResponse r)),
     [Call req; WarnRateLimit 1 flashModel; Wait 1000; Call req]).
Proof.
  intros Hk Hl req H1 R1 H2. rewrite generateResponse_loop by assumption.
  assert (Em : fst (selectModel thinkingLevel) = flashModel)
    by (destruct thinkingLevel; [reflexivity | reflexivity | congruence]).
  unfold req, initialRequest in *. rewrite Em in *.
  unfold maxAttempts at 1. enter_loop.
  pass_retry iteration_backoff H1 R1. enter_loop.
  pass_with iteration_success H2.
  reflexivity.
Qed.

Lemma fast_recovers_after_two thinkingLevel e1 e2 r :
  keyMissing apiKey = false ->
  thinkingLevel <> deep ->
  let req := initialRequest SYSTEM_INSTRUCTIONS history currentSubject
                            thinkingLevel useSearch in
  provider 0%nat req = inr e1 -> retryable e1 = true ->
  provider 1%nat req = inr e2 -> retryable e2 = true ->
  provider 2%nat req = inl r ->
  generateResponse SYSTEM_INSTRUCTIONS provider apiKey history currentSubject
                   thinkingLevel useSearch []
  = (Some (Returned (renderResponse r)),
     [Call req; WarnRateLimit 1 flashModel; Wait 1000;
      Call req; WarnRateLimit 2 flashModel; Wait 1500; Call req]).
Proof.
  intros Hk Hl req H1 R1 H2 R2 H3. rewrite generateResponse_loop by assumption.
  assert (Em : fst (selectModel thinkingLevel) = flashModel)
    by (destruct thinkingLevel; [reflexivity | reflexivity | congruence]).
  unfold req, initialRequest in *. rewrite Em in *.
  unfold maxAttempts at 1. enter_loop.
  pass_retry iteration_backoff H1 R1. enter_loop.
  pass_retry iteration_backoff H2 R2. enter_loop.
  pass_with iteration_success H3.
  reflexivity.
Qed.

End MoreScenarios.

(** X3: at the thinking level deep, with an API key and a provider that
    fails every request with a retryable error, the switch to the fast model
    uses up the first of the three attempts: the premium request is followed
    at once by a fast request, then by one wait of 1000 ms and a last fast
    request, and the RATE_LIMIT_60 error is thrown.  The 1500 ms wait never
    happens. *)
Theorem deep_retries_exhausted SYSTEM_INSTRUCTIONS provider apiKey history
    currentSubject (useSearch : bool) :
  keyMissing apiKey = false ->
  (forall n req, exists e, provider n req = inr e /\ retryable e = true) ->
  let translated := mapMessagesToContent history in
  let instruction := SYSTEM_INSTRUCTIONS currentSubject in
  let toolList := if useSearch then [GoogleSearch] else [] in
  let reqPro := buildRequest proModel 8192 translated instruction toolList in
  let reqFlash := buildRequest flashModel 0 translated instruction toolList in
  exists tr,
    generateResponse SYSTEM_INSTRUCTIONS provider apiKey history currentSubject
                     deep useSearch []
    = (Some (Thrown (newError "RATE_LIMIT_60")), tr)
    /\ tr = [Call reqPro; WarnRateLimit 1 "gemini-3-pro-preview"; LogSwitching;
             Call reqFlash; WarnRateLimit 2 "gemini-2.5-flash"; Wait 1000;
             Call reqFlash; WarnRateLimit 3 "gemini-2.5-flash"]
    /\ callsOf tr = [reqPro; reqFlash; reqFlash]
    /\ waitsOf tr = [1000]
    /\ switchesOf tr = 1%nat.
Proof.
  intros Hk Hall translated instruction toolList reqPro reqFlash.
  eexists. split; [now apply always_retryable_deep|].
  repeat split.
Qed.

Lemma deep_retries_exhausted_witness :
  exists tr,
    generateResponse sampleInstructions providerOverloaded (Some "key")
                     sampleHistory PHYSICS deep false []
    = (Some (Thrown (newError "RATE_LIMIT_60")), tr)
    /\ waitsOf tr = [1000]
    /\ switchesOf tr = 1%nat.
Proof.
  destruct (deep_retries_exhausted sampleInstructions providerOverloaded
              (Some "key") sampleHistory PHYSICS false eq_refl)
    as (tr & Hrun & _ & _ & Hw & Hs).
  - intros n req. exists error503. split; reflexivity.
  - exists tr. split; [exact Hrun | split; [exact Hw | exact Hs]].
Defined.

(** X4: on the fast model (thinking level none or moderate), with an API
    key, retryable failures of the first request, or of the first two, are
    absorbed: when the next request is answered, the rendered answer is
    returned, after a wait of 1000 ms, respectively of 1000 ms and 1500 ms,
    and nothing is thrown. *)
Theorem transient_failures_absorbed SYSTEM_INSTRUCTIONS provider apiKey history
    currentSubject thinkingLevel useSearch e1 :
  keyMissing apiKey = false ->
  thinkingLevel <> deep ->
  let req := initialRequest SYSTEM_INSTRUCTIONS history currentSubject
                            thinkingLevel useSearch in
  provider 0%nat req = inr e1 -> retryable e1 = true ->
  (forall r,
     provider 1%nat req = inl r ->
     generateResponse SYSTEM_INSTRUCTIONS provider apiKey history
                      currentSubject thinkingLevel useSearch []
     = (Some (Returned (renderResponse r)),
        [Call req; WarnRateLimit 1 "gemini-2.5-flash"; Wait 1000; Call req]))
  /\ (forall e2 r,
        provider 1%nat req = inr e2 -> retryable e2 = true ->
        provider 2%nat req = inl r ->
        generateResponse SYSTEM_INSTRUCTIONS provider apiKey history
                         currentSubject thinkingLevel useSearch []
        = (Some (Returned (renderResponse r)),
           [Call req; WarnRateLimit 1 "gemini-2.5-flash"; Wait 1000;
            Call req; WarnRateLimit 2 "gemini-2.5-flash"; Wait 1500;
            Call req])).
Proof.
  intros Hk Hl req H1 R1. split.
  - intros r H2. now apply fast_recovers_after_one with (e1 := e1).
  - intros e2 r H2 R2 H3.
    now apply fast_recovers_after_two with (e1 := e1) (e2 := e2).
Qed.

Lemma transient_failures_absorbed_witness :
  generateResponse sampleInstructions providerHiccup (Some "key")
                   sampleHistory MATH moderate false []
  = (Some (Returned (renderResponse sampleResponse)),
     [Call (initialRequest sampleInstructions sampleHistory MATH moderate false);
      WarnRateLimit 1 "gemini-2.5-flash"; Wait 1000;
      Call (initialRequest sampleInstructions sampleHistory MATH moderate false)]).
Proof.
  refine (proj1 (transient_failures_absorbed sampleInstructions providerHiccup
                   (Some "key") sampleHistory MATH moderate false error503
                   eq_refl _ eq_refl eq_refl) sampleResponse eq_refl).
  discriminate.
Defined.

(** ** Strings: substrings and letter case *)

Lemma prefix_iff n : forall s,
  String.prefix n s = true <-> exists post, s = n ++ post.
Proof.
  induction n as [|c n IH]; intros [|d s]; simpl.
  - split; [intros _; now exists "" | reflexivity].
  - split; [intros _; now exists (String d s) | reflexivity].
  - split; [discriminate | intros (post & E); discriminate E].
  - destruct (ascii_dec c d) as [->|Hne].
    + rewrite IH. split; intros (post & E); exists post;
        [now rewrite E | now injection E].
    + split; [discriminate|]. intros (post & E). injection E as E1 _.
      congruence.
Qed.

Lemma includes_iff n : forall s,
  JS.includes n s = true <-> exists pre post, s = pre ++ n ++ post.
Proof.
  induction s as [|d s IH]; cbn [JS.includes].
  - rewrite orb_false_r, prefix_iff. split.
    + intros (post & E). now exists "", post.
    + intros (pre & post & E). destruct pre; [now exists post|discriminate E].
  - rewrite orb_true_iff, prefix_iff, IH. split.
    + intros [(post & E) | (pre & post & E)].
      * now exists "", post.
      * exists (String d pre), post. simpl. now rewrite E.
    + intros (pre & post & E). destruct pre as [|c pre].
      * left. now exists post.
      * right. injection E as _ E. now exists pre, post.
Qed.

Lemma append_assoc (a b c : string) : (a ++ b) ++ c = a ++ (b ++ c).
Proof. induction a as [|x a IH]; simpl; [reflexivity | now rewrite IH]. Qed.

Lemma toLowerCase_app a b :
  JS.toLowerCase (a ++ b) = JS.toLowerCase a ++ JS.toLowerCase b.
Proof. induction a as [|x a IH]; simpl; [reflexivity | now rewrite IH]. Qed.

(** A substring stays one when both strings are lowered. *)
Lemma includes_lower n s :
  JS.includes n s = true ->
  JS.includes (JS.toLowerCase n) (JS.toLowerCase s) = true.
Proof.
  rewrite !includes_iff. intros (pre & post & ->).
  exists (JS.toLowerCase pre), (JS.toLowerCase post).
  now rewrite !toLowerCase_app.
Qed.

(** A substring of a substring is a substring. *)
Lemma includes_trans a b s :
  JS.includes a b = true -> JS.includes b s = true -> JS.includes a s = true.
Proof.
  rewrite !includes_iff. intros (p1 & q1 & ->) (p2 & q2 & ->).
  exists (p2 ++ p1), (q1 ++ q2). now rewrite !append_assoc.
Qed.

Lemma orElse_empty s : JS.orElse (Some s) "" = s.
Proof. now destruct s. Qed.

Lemma errorMessageOf_Some e m :
  message e = Some m -> errorMessageOf e = JS.toLowerCase m.
Proof. intros H. unfold errorMessageOf. rewrite H. apply orElse_empty. Qed.

Lemma includes_nil_r n : JS.includes n "" = true -> n = "".
Proof.
  rewrite includes_iff. intros (pre & post & E).
  destruct pre; [|discriminate E]. now destruct n.
Qed.

Lemma retryable_iff e :
  retryable e = true <->
  exists kw, In kw ["429"; "quota"; "limit"; "503"; "overloaded"]
             /\ JS.includes kw (errorMessageOf e) = true.
Proof.
  unfold retryable, isRateLimit, isServerOverload. cbv zeta.
  rewrite !orb_true_iff. split.
  - intros [[[H|H]|H]|[H|H]]; eexists; (split; [|exact H]); simpl; tauto.
  - intros (kw & Hin & H). simpl in Hin.
    destruct Hin as [<-|[<-|[<-|[<-|[<-|[]]]]]]; tauto.
Qed.

(** X5: an error is retried exactly when its message, letters lowered,
    contains one of 429, quota, limit, 503, overloaded.  So a keyword written
    in any letter case makes the error retryable, and an error without
    message, or with an empty one, is never retried. *)
Theorem retryable_by_keyword e :
  (forall m kw,
     message e = Some m ->
     In (JS.toLowerCase kw) ["429"; "quota"; "limit"; "503"; "overloaded"] ->
     JS.includes kw m = true ->
     retryable e = true)
  /\ (message e = None \/ message e = Some "" -> retryable e = false)
  /\ (retryable e = true <->
      exists m kw, message e = Some m
        /\ In kw ["429"; "quota"; "limit"; "503"; "overloaded"]
        /\ JS.includes kw (JS.toLowerCase m) = true).
Proof.
  split; [|split].
  - intros m kw Hm Hin Hinc. apply retryable_iff.
    exists (JS.toLowerCase kw). split; [assumption|].
    rewrite (errorMessageOf_Some e m Hm). now apply includes_lower.
  - intros [H|H]; unfold retryable, isRateLimit, isServerOverload, errorMessageOf;
      rewrite H; reflexivity.
  - rewrite retryable_iff. split.
    + intros (kw & Hin & Hinc). destruct (message e) as [m|] eqn:Hm.
      * exists m, kw. rewrite (errorMessageOf_Some e m Hm) in Hinc. auto.
      * unfold errorMessageOf in Hinc. rewrite Hm in Hinc. simpl in Hinc.
        apply includes_nil_r in Hinc. subst kw. simpl in Hin.
        repeat (destruct Hin as [Hin|Hin]; [discriminate Hin|]). destruct Hin.
    + intros (m & kw & Hm & Hin & Hinc). exists kw. split; [assumption|].
      now rewrite (errorMessageOf_Some e m Hm).
Qed.

Lemma retryable_by_keyword_witness : retryable errorQuota = true.
Proof.
  apply (proj1 (retryable_by_keyword errorQuota)
           "Resource Exhausted: QUOTA exceeded" "QUOTA" eq_refl).
  - simpl. tauto.
  - reflexivity.
Defined.

(** ** More on rendering *)

Lemma orElse_truthy o d : JS.truthy d = true -> JS.truthy (JS.orElse o d) = true.
Proof.
  intros Hd. destruct o as [s|]; simpl; [|assumption].
  destruct (JS.truthy s) eqn:Hs; assumption.
Qed.

Lemma truthy_app a b : JS.truthy a = true -> JS.truthy (a ++ b) = true.
Proof. now destruct a. Qed.

Lemma truthy_nonempty s : JS.truthy s = true <-> s <> "".
Proof. destruct s; simpl; split; congruence. Qed.

Lemma renderResponse_truthy r : JS.truthy (renderResponse r) = true.
Proof.
  assert (Ht : JS.truthy (JS.orElse (resp_text r) fallbackText) = true)
    by now apply orElse_truthy.
  unfold renderResponse. destruct (groundingChunksOf r) as [chunks|]; [|assumption].
  destruct (0 <? List.length chunks)%nat; [|assumption].
  cbv zeta. destruct (0 <? List.length (JS.newSet (sourcesOf chunks)))%nat;
    [now apply truthy_app | assumption].
Qed.

(** X6: the string a call of [generateResponse] returns is never empty,
    whatever the key, the inputs and the provider; in particular a response
    is never rendered as the empty string. *)
Theorem returned_text_never_empty SYSTEM_INSTRUCTIONS provider apiKey history
    currentSubject thinkingLevel useSearch :
  (forall r, renderResponse r <> "")
  /\ exists out tr,
       generateResponse SYSTEM_INSTRUCTIONS provider apiKey history
                        currentSubject thinkingLevel useSearch []
       = (Some out, tr)
       /\ out <> Returned "".
Proof.
  split; [intros r; apply truthy_nonempty, renderResponse_truthy|].
  destruct (keyMissing apiKey) eqn:Hk.
  - exists (Returned configMessage), [].
    split; [now apply generateResponse_no_key | discriminate].
  - destruct (generateResponse_run SYSTEM_INSTRUCTIONS provider apiKey history
                currentSubject thinkingLevel useSearch Hk)
      as (out & rest & Hrun & Hspec).
    eexists out, _. split; [exact Hrun|].
    destruct (terminal_of_run _ _ _ _ Hspec) as ([| |] & Hk');
      simpl in Hk'.
    + destruct Hk' as (r & _ & ->). intros E. injection E as E.
      revert E. apply truthy_nonempty, renderResponse_truthy.
    + destruct Hk' as (e & _ & _ & ->). discriminate.
    + destruct Hk' as (e & _ & _ & _ & ->). discriminate.
Qed.

(** X7: a response without grounding chunks, or whose chunks carry no web
    reference, is rendered without a Sources section: a non-empty response
    text is returned unchanged, and an absent or empty one gives the fallback
    sentence. *)
Theorem renderResponse_without_sources r :
  groundingChunksOf r = None
  \/ (exists chunks, groundingChunksOf r = Some chunks /\ websOf chunks = []) ->
  renderResponse r = JS.orElse (resp_text r) fallbackText
  /\ (forall t, resp_text r = Some t -> t <> "" -> renderResponse r = t).
Proof.
  intros H.
  assert (E : renderResponse r = JS.orElse (resp_text r) fallbackText).
  { unfold renderResponse. destruct H as [-> | (chunks & -> & Hw)]; [reflexivity|].
    rewrite sourcesOf_webs, Hw. simpl. now destruct (0 <? List.length chunks)%nat. }
  split; [exact E|]. intros t Ht Hne. rewrite E, Ht.
  apply truthy_nonempty in Hne. simpl. now rewrite Hne.
Qed.

Lemma renderResponse_without_sources_witness :
  renderResponse sampleResponse = JS.orElse (resp_text sampleResponse) fallbackText
  /\ (forall t, resp_text sampleResponse = Some t -> t <> "" ->
                renderResponse sampleResponse = t).
Proof.
  apply (renderResponse_without_sources sampleResponse).
  left. reflexivity.
Defined.

(** ** More on the translation of the history *)

Lemma mapPart_injective p q :
  wellFormedPart p -> wellFormedPart q -> mapPart p = mapPart q -> p = q.
Proof.
  unfold mapPart.
  intros [(d & Hd & Ht) | (t & Hd & Ht & Hne)] [(d' & Hd' & Ht') | (t' & Hd' & Ht' & Hne')];
    rewrite Hd, Hd'; try rewrite Ht; try rewrite Ht'; intros E;
    try discriminate E.
  - injection E as E1 E2. destruct p, q, d, d'; simpl in *. congruence.
  - injection E as E. simpl in E.
    apply truthy_nonempty in Hne, Hne'. rewrite Hne, Hne' in E.
    destruct p, q; simpl in *. congruence.
Qed.

(** X8: the translation keeps the shape of the history: as many entries as
    messages, in the same order (the translation of an extended history
    extends the translation), each with the role and as many parts as its
    message. *)
Theorem mapMessagesToContent_shape h1 h2 :
  mapMessagesToContent (h1 ++ h2)
  = (mapMessagesToContent h1 ++ mapMessagesToContent h2)%list
  /\ List.length (mapMessagesToContent h1) = List.length h1
  /\ map c_role (mapMessagesToContent h1) = map role h1
  /\ map (fun c => List.length (c_parts c)) (mapMessagesToContent h1)
     = map (fun m => List.length (parts m)) h1.
Proof.
  unfold mapMessagesToContent.
  split; [apply map_app|]. split; [apply length_map|].
  split; [now rewrite map_map|].
  rewrite map_map. apply map_ext. intros m. cbn [c_parts]. apply length_map.
Qed.

(** X9: on messages whose parts each carry exactly one of image and
    non-empty text, the translation loses only the time stamp and the error
    flag: equal translations come from histories with equal roles and
    parts. *)
Theorem mapMessagesToContent_lossless h1 h2 :
  Forall (fun m => Forall wellFormedPart (parts m)) h1 ->
  Forall (fun m => Forall wellFormedPart (parts m)) h2 ->
  mapMessagesToContent h1 = mapMessagesToContent h2 ->
  map (fun m => (role m, parts m)) h1 = map (fun m => (role m, parts m)) h2.
Proof.
  unfold mapMessagesToContent.
  revert h2. induction h1 as [|m h1 IH]; intros [|m' h2] W1 W2 E;
    try discriminate E; [reflexivity|].
  cbn [map] in E |- *. injection E as Er Ep E.
  inversion W1 as [|? ? Wm W1']; inversion W2 as [|? ? Wm' W2']; subst.
  rewrite (IH h2 W1' W2' E), Er. f_equal. f_equal.
  clear - Wm Wm' Ep. revert Ep Wm Wm'.
  generalize (parts m) (parts m'). intros l.
  induction l as [|p l IHl]; intros [|q l'] Ep Wl Wl'; try discriminate Ep;
    [reflexivity|].
  cbn [map] in Ep. injection Ep as E1 E2.
  inversion Wl; inversion Wl'; subst.
  f_equal; [now apply mapPart_injective | now apply IHl].
Qed.

Lemma wellFormedParts_ok : Forall wellFormedPart wellFormedParts.
Proof.
  apply Forall_cons; [|apply Forall_cons; [|apply Forall_nil]].
  - left. eexists. split; reflexivity.
  - right. eexists. split; [reflexivity | split; [reflexivity | discriminate]].
Qed.

Lemma mapMessagesToContent_lossless_witness :
  map (fun m => (role m, parts m)) wellFormedHistory
  = map (fun m => (role m, parts m)) wellFormedHistoryLater.
Proof.
  apply (mapMessagesToContent_lossless wellFormedHistory wellFormedHistoryLater).
  - apply Forall_cons; [exact wellFormedParts_ok | apply Forall_nil].
  - apply Forall_cons; [exact wellFormedParts_ok | apply Forall_nil].
  - reflexivity.
Defined.

(** ** Sending a turn from the chat screen *)

Lemma subjectKey_inj a b : App.subjectKey a = App.subjectKey b -> a = b.
Proof. destruct a, b; simpl; intros E; (reflexivity || discriminate E). Qed.

Lemma messagesOf_withKey_same h key v :
  App.messagesOf (App.withKey h key v) key = v.
Proof. unfold App.messagesOf, App.withKey. now rewrite String.eqb_refl. Qed.

Lemma withKey_other h key v k : k <> key -> App.withKey h key v k = h k.
Proof. intros H. unfold App.withKey. apply String.eqb_neq in H. now rewrite H. Qed.

(** An error that the chat screen takes for the rate-limit signal is one the
    service would have retried. *)
Lemma rateLimitSignal_retryable e :
  App.rateLimitSignal e = true -> retryable e = true.
Proof.
  unfold App.rateLimitSignal. destruct (message e) as [m|] eqn:Hm; [|discriminate].
  rewrite andb_true_iff. intros [_ Hinc].
  apply retryable_iff. exists "limit". split; [simpl; tauto|].
  rewrite (errorMessageOf_Some e m Hm).
  apply includes_trans with (b := "rate_limit"); [reflexivity|].
  apply (includes_lower "RATE_LIMIT" m Hinc).
Qed.

Section Sending.

Variable SYSTEM_INSTRUCTIONS : Subject -> string.
Variable provider : Provider.
Variable apiKey : option string.
Variable trim : string -> string.

Variables (s : App.State) (text : string) (image : option InlineData)
          (now1 now2 : Z).

Let key := App.subjectKey (App.activeSubject s).
Let old := App.messagesOf (App.histories s) key.
Let sent := (old ++ [App.userMessage text image now1])%list.
Let s1 :=
  App.setIsLoading true
    (App.setHistories (fun prev => App.withKey prev key sent) s).

Lemma handleSend_accepted out tr :
  App.ignored trim s text image = false ->
  generateResponse SYSTEM_INSTRUCTIONS provider apiKey sent
    (App.activeSubject s) (App.thinkingLevel s) (App.useSearch s) []
  = (Some out, tr) ->
  App.handleSend SYSTEM_INSTRUCTIONS provider apiKey trim s text image now1 now2
  = Some (fst (App.finishSend (App.activeSubject s) out now2 s1),
          (map App.Service tr
           ++ snd (App.finishSend (App.activeSubject s) out now2 s1))%list).
Proof.
  intros Hi Hrun. unfold App.handleSend. rewrite Hi. cbv zeta.
  fold key. fold old. fold sent. rewrite Hrun. fold s1.
  now destruct (App.finishSend (App.activeSubject s) out now2 s1).
Qed.

Lemma handleSend_runs :
  App.ignored trim s text image = false ->
  exists out tr,
    generateResponse SYSTEM_INSTRUCTIONS provider apiKey sent
      (App.activeSubject s) (App.thinkingLevel s) (App.useSearch s) []
    = (Some out, tr)
    /\ App.handleSend SYSTEM_INSTRUCTIONS provider apiKey trim s text image
                      now1 now2
       = Some (fst (App.finishSend (App.activeSubject s) out now2 s1),
               (map App.Service tr
                ++ snd (App.finishSend (App.activeSubject s) out now2 s1))%list).
Proof.
  intros Hi.
  destruct (generateResponse SYSTEM_INSTRUCTIONS provider apiKey sent
              (App.activeSubject s) (App.thinkingLevel s) (App.useSearch s) [])
    as [[out|] tr] eqn:Hrun.
  - exists out, tr. split; [reflexivity | now apply handleSend_accepted].
  - exfalso.
    pose proof (proj2 (generateResponse_fuel SYSTEM_INSTRUCTIONS provider apiKey
                         sent (App.activeSubject s) (App.thinkingLevel s)
                         (App.useSearch s) maxAttempts [] (le_n _))) as Hn.
    rewrite Hrun in Hn. now apply Hn.
Qed.

End Sending.

(** X10: [handleSend] ignores a turn when a request is in flight, or when
    there is no image and the trimmed text is empty: the state stays as it
    is and nothing is sent.  Every other turn is kept, whatever the service
    does: the call finishes, the loading flag is off afterwards, the
    histories of the other subjects and the settings are untouched, and the
    active subject's history is the old one, then the user's message, then at
    most one message of the model. *)
Theorem handleSend_keeps_the_turn SYSTEM_INSTRUCTIONS provider apiKey trim
    (s : App.State) text image now1 now2 :
  let key := App.subjectKey (App.activeSubject s) in
  let old := App.messagesOf (App.histories s) key in
  if App.ignored trim s text image
  then App.handleSend SYSTEM_INSTRUCTIONS provider apiKey trim s text image
                      now1 now2 = Some (s, [])
  else exists s' logs,
    App.handleSend SYSTEM_INSTRUCTIONS provider apiKey trim s text image
                   now1 now2 = Some (s', logs)
    /\ App.isLoading s' = false
    /\ App.activeSubject s' = App.activeSubject s
    /\ App.thinkingLevel s' = App.thinkingLevel s
    /\ App.useSearch s' = App.useSearch s
    /\ (forall k, k <> key -> App.histories s' k = App.histories s k)
    /\ exists extra,
         App.histories s' key
         = Some (old ++ App.userMessage text image now1 :: extra)%list
         /\ (extra = [] \/ exists m, extra = [m] /\ role m = RoleModel).
Proof.
  intros key old. destruct (App.ignored trim s text image) eqn:Hi.
  - unfold App.handleSend. now rewrite Hi.
  - destruct (handleSend_runs SYSTEM_INSTRUCTIONS provider apiKey trim s text
                image now1 now2 Hi) as (out & tr & _ & Hs).
    eexists _, _. split; [exact Hs|].
    fold key. fold old.
    destruct out as [t|e]; cbn [App.finishSend fst];
      [|destruct (App.rateLimitSignal e)];
      cbn [App.setIsLoading App.setHistories App.setLimitResetTime
           App.isLoading App.activeSubject App.thinkingLevel App.useSearch
           App.histories];
      (repeat (split; [reflexivity|]));
      (split; [intros k Hk; unfold App.appendTo;
               now rewrite ?withKey_other by assumption|]).
    + exists [App.botMessage t now2]. unfold App.appendTo.
      rewrite messagesOf_withKey_same. unfold App.withKey at 1.
      rewrite String.eqb_refl, <- app_assoc. split; [reflexivity|].
      right. eexists. split; reflexivity.
    + exists []. unfold App.withKey. rewrite String.eqb_refl.
      split; [reflexivity | now left].
    + exists [App.errorMessage now2]. unfold App.appendTo.
      rewrite messagesOf_withKey_same. unfold App.withKey at 1.
      rewrite String.eqb_refl, <- app_assoc. split; [reflexivity|].
      right. eexists. split; reflexivity.
Qed.

(** X11: with an API key, what [handleSend] shows for an accepted turn
    follows the way the service ended.  Done: the rendered answer is
    appended as a message of the model.  Fatal: the fixed "connection
    unstable" message is appended with its error flag set, and the reset
    time stays as it was.  RateLimited, and only then: nothing is appended
    after the user's message and the reset time is set 60 seconds after the
    failure.  The error is logged in both failure cases. *)
Theorem handleSend_outcomes SYSTEM_INSTRUCTIONS provider apiKey trim
    (s : App.State) text image now1 now2 :
  let key := App.subjectKey (App.activeSubject s) in
  let sent := (App.messagesOf (App.histories s) key
               ++ [App.userMessage text image now1])%list in
  App.ignored trim s text image = false ->
  keyMissing apiKey = false ->
  exists out tr k s' logs,
    generateResponse SYSTEM_INSTRUCTIONS provider apiKey sent
      (App.activeSubject s) (App.thinkingLevel s) (App.useSearch s) []
    = (Some out, tr)
    /\ terminal provider k tr out
    /\ App.handleSend SYSTEM_INSTRUCTIONS provider apiKey trim s text image
                      now1 now2 = Some (s', logs)
    /\ match k with
       | Done =>
           exists t, out = Returned t
             /\ App.histories s' key = Some (sent ++ [App.botMessage t now2])%list
             /\ App.limitResetTime s' = App.limitResetTime s
             /\ logs = map App.Service tr
       | Fatal =>
           exists e, out = Thrown e
             /\ App.histories s' key
                = Some (sent ++ [App.errorMessage now2])%list
             /\ App.limitResetTime s' = App.limitResetTime s
             /\ logs = (map App.Service tr ++ [App.AppError e])%list
       | RateLimited =>
           App.histories s' key = Some sent
           /\ App.limitResetTime s' = Some (now2 + 60000)%Z
           /\ logs = (map App.Service tr ++ [App.AppError rateLimitError])%list
       end.
Proof.
  intros key sent Hi Hk.
  destruct (generateResponse_run SYSTEM_INSTRUCTIONS provider apiKey sent
              (App.activeSubject s) (App.thinkingLevel s) (App.useSearch s) Hk)
    as (out & rest & Hrun & Hspec).
  destruct (terminal_of_run _ _ _ _ Hspec) as (k & Hterm).
  pose proof (handleSend_accepted SYSTEM_INSTRUCTIONS provider apiKey trim s
                text image now1 now2 out _ Hi Hrun) as Hs.
  eexists out, _, k, _, _. split; [exact Hrun|]. split; [exact Hterm|].
  split; [exact Hs|]. fold key.
  destruct k; simpl in Hterm.
  - destruct Hterm as (r & _ & ->). exists (renderResponse r).
    split; [reflexivity|]. cbn [App.finishSend fst snd App.setIsLoading
      App.setHistories App.histories App.limitResetTime].
    unfold App.appendTo. rewrite messagesOf_withKey_same.
    unfold App.withKey at 1. rewrite String.eqb_refl, app_nil_r.
    repeat split.
  - destruct Hterm as (e & _ & He & ->). exists e.
    split; [reflexivity|].
    assert (Hsig : App.rateLimitSignal e = false).
    { destruct (App.rateLimitSignal e) eqn:Hsig; [|reflexivity].
      apply rateLimitSignal_retryable in Hsig. congruence. }
    cbn [App.finishSend fst snd]. rewrite Hsig.
    cbn [App.setIsLoading App.setHistories App.histories App.limitResetTime].
    unfold App.appendTo. rewrite messagesOf_withKey_same.
    unfold App.withKey at 1. rewrite String.eqb_refl.
    repeat split.
  - destruct Hterm as (e & _ & _ & _ & ->).
    cbn [App.finishSend fst snd].
    change (App.rateLimitSignal rateLimitError) with true. cbv iota.
    cbn [App.setIsLoading App.setHistories App.setLimitResetTime App.histories
         App.limitResetTime].
    unfold App.withKey. rewrite String.eqb_refl.
    repeat split.
Qed.

Lemma handleSend_outcomes_witness :
  exists s' logs,
    App.handleSend sampleInstructions providerOverloaded (Some "key") sampleTrim
                   sampleState "x^2 = 4" None 1700000001000 1700000005000
    = Some (s', logs)
    /\ App.limitResetTime s' = Some 1700000065000%Z.
Proof.
  destruct (handleSend_outcomes sampleInstructions providerOverloaded
              (Some "key") sampleTrim sampleState "x^2 = 4" None
              1700000001000 1700000005000 eq_refl eq_refl)
    as (out & tr & k & s' & logs & Hrun & Hterm & Hs & Hk).
  exists s', logs. split; [exact Hs|].
  vm_compute in Hrun. injection Hrun as <- <-.
  destruct k; simpl in Hterm.
  - destruct Hterm as (r & _ & E). discriminate E.
  - destruct Hterm as (e & Hl & He & E). injection E as <-. discriminate He.
  - destruct Hk as (_ & Hl & _). exact Hl.
Defined.

(** X12: without an API key an accepted turn reaches no provider, and the
    fixed configuration message is appended as an ordinary message of the
    model: its error flag is not set, the reset time stays as it was and
    nothing is logged. *)
Theorem handleSend_without_key SYSTEM_INSTRUCTIONS provider apiKey trim
    (s : App.State) text image now1 now2 :
  let key := App.subjectKey (App.activeSubject s) in
  let old := App.messagesOf (App.histories s) key in
  App.ignored trim s text image = false ->
  keyMissing apiKey = true ->
  exists s',
    App.handleSend SYSTEM_INSTRUCTIONS provider apiKey trim s text image
                   now1 now2 = Some (s', [])
    /\ App.histories s' key
       = Some (old ++ [App.userMessage text image now1;
                       App.botMessage configMessage now2])%list
    /\ isError (App.botMessage configMessage now2) = None
    /\ App.limitResetTime s' = App.limitResetTime s
    /\ App.isLoading s' = false.
Proof.
  intros key old Hi Hk.
  pose proof (handleSend_accepted SYSTEM_INSTRUCTIONS provider apiKey trim s
                text image now1 now2 (Returned configMessage) [] Hi
                (generateResponse_no_key _ _ _ _ _ _ _ _ Hk)) as Hs.
  eexists. split; [exact Hs|].
  cbn [App.finishSend fst snd App.setIsLoading App.setHistories App.histories
       App.limitResetTime App.isLoading].
  unfold App.appendTo. fold key. rewrite messagesOf_withKey_same.
  unfold App.withKey at 1. rewrite String.eqb_refl, <- app_assoc.
  repeat split.
Qed.

Lemma handleSend_without_key_witness :
  exists s',
    App.handleSend sampleInstructions providerHealthy None sampleTrim
                   sampleState "x^2 = 4" None 1700000001000 1700000005000
    = Some (s', [])
    /\ App.histories s' "MATH"
       = Some (wellFormedHistory
               ++ [App.userMessage "x^2 = 4" None 1700000001000;
                   App.botMessage configMessage 1700000005000])%list.
Proof.
  destruct (handleSend_without_key sampleInstructions providerHealthy None
              sampleTrim sampleState "x^2 = 4" None 1700000001000
              1700000005000 eq_refl eq_refl)
    as (s' & Hs & Hh & _).
  exists s'. split; [exact Hs | exact Hh].
Defined.

Lemma userMessage_parts text image now :
  parts (App.userMessage text image now)
  = ((match image with
      | Some i => [ {| text := None; inlineData := Some i |} ]
      | None => []
      end)
     ++ (if JS.truthy text
         then [ {| text := Some text; inlineData := None |} ]
         else []))%list.
Proof. reflexivity. Qed.

(** X13: when [trim] maps the empty string to itself, the message
    [handleSend] builds for an accepted turn has one or two parts, each with
    exactly one of image and non-empty text, the image first; and, with an
    API key, the first request the service sends carries the translated old
    history followed by one user entry with these parts in this order, so a
    request from the chat screen never has empty contents. *)
Theorem handleSend_sends_well_formed SYSTEM_INSTRUCTIONS provider apiKey
    (trim : string -> string) (s : App.State) text image now1 now2 :
  trim "" = "" ->
  App.ignored trim s text image = false ->
  let key := App.subjectKey (App.activeSubject s) in
  let old := App.messagesOf (App.histories s) key in
  let m := App.userMessage text image now1 in
  let entry :=
    {| c_role := RoleUser;
       c_parts :=
         ((match image with Some i => [PartInline i] | None => [] end)
          ++ (if JS.truthy text then [PartText text] else []))%list |} in
  parts m <> []
  /\ (List.length (parts m) <= 2)%nat
  /\ Forall wellFormedPart (parts m)
  /\ c_parts entry <> []
  /\ (keyMissing apiKey = false ->
      exists s' req rest,
        App.handleSend SYSTEM_INSTRUCTIONS provider apiKey trim s text image
                       now1 now2
        = Some (s', App.Service (Call req) :: rest)
        /\ contents req = (mapMessagesToContent old ++ [entry])%list).
Proof.
  intros Htrim Hi key old m entry.
  assert (Hne : image <> None \/ JS.truthy text = true).
  { unfold App.ignored in Hi. apply orb_false_iff in Hi. destruct Hi as [Hi _].
    destruct image as [i|]; [left; discriminate|]. right.
    rewrite andb_true_r in Hi. apply negb_false_iff in Hi.
    destruct text; [now rewrite Htrim in Hi | reflexivity]. }
  split; [|split; [|split; [|split]]].
  - unfold m. rewrite userMessage_parts.
    destruct image; [discriminate|]. destruct Hne as [Hc|Ht]; [now elim Hc|].
    rewrite Ht. discriminate.
  - unfold m. rewrite userMessage_parts.
    destruct image, (JS.truthy text); simpl; lia.
  - unfold m. rewrite userMessage_parts.
    destruct image as [i|]; destruct (JS.truthy text) eqn:Ht; simpl;
      repeat (apply Forall_cons || apply Forall_nil);
      try (left; eexists; split; reflexivity);
      right; exists text; (split; [reflexivity|]); (split; [reflexivity|]);
      now apply truthy_nonempty.
  - cbn [c_parts entry]. destruct image; [discriminate|].
    destruct Hne as [Hc|Ht]; [now elim Hc|]. rewrite Ht. discriminate.
  - intros Hk.
    destruct (generateResponse_run SYSTEM_INSTRUCTIONS provider apiKey
                (old ++ [m])%list
                (App.activeSubject s) (App.thinkingLevel s) (App.useSearch s) Hk)
      as (out & rest & Hrun & _).
    pose proof (handleSend_accepted SYSTEM_INSTRUCTIONS provider apiKey trim s
                  text image now1 now2 out _ Hi Hrun) as Hs.
    eexists _, _, _. split; [exact Hs|].
    cbn [contents initialRequest buildRequest].
    unfold mapMessagesToContent. rewrite map_app. f_equal.
    cbn [map]. unfold entry, m. cbn [role]. rewrite userMessage_parts, map_app.
    f_equal. f_equal.
    destruct image as [[mt dt]|]; destruct (JS.truthy text) eqn:Ht; simpl;
      unfold mapPart; simpl; rewrite ?Ht; reflexivity.
Qed.

Lemma sampleTrim_empty : sampleTrim "" = "".
Proof. reflexivity. Qed.

Lemma handleSend_sends_well_formed_witness :
  exists s' req rest,
    App.handleSend sampleInstructions providerHealthy (Some "key") sampleTrim
                   sampleState "what is this?" (Some sampleImage)
                   1700000001000 1700000005000
    = Some (s', App.Service (Call req) :: rest)
    /\ contents req
       = (mapMessagesToContent wellFormedHistory
          ++ [ {| c_role := RoleUser;
                  c_parts := [PartInline sampleImage;
                              PartText "what is this?"] |} ])%list.
Proof.
  exact (proj2 (proj2 (proj2 (proj2
           (handleSend_sends_well_formed sampleInstructions providerHealthy
              (Some "key") sampleTrim sampleState "what is this?"
              (Some sampleImage) 1700000001000 1700000005000
              eq_refl eq_refl)))) eq_refl).
Defined.

(** X14: the second half of [handleSend] works on the state it finds after
    the wait and on the subject the turn was sent from.  Whatever happened in
    between (another subject selected, the history cleared), it switches the
    loading flag off, leaves the selected subject, the settings and the
    histories of all other subjects as they are, and appends the answer, or
    the error message, to the history of the subject of the turn. *)
Theorem finishSend_targets_its_subject subject out now (prev : App.State) :
  let s' := fst (App.finishSend subject out now prev) in
  let key := App.subjectKey subject in
  App.isLoading s' = false
  /\ App.activeSubject s' = App.activeSubject prev
  /\ App.thinkingLevel s' = App.thinkingLevel prev
  /\ App.useSearch s' = App.useSearch prev
  /\ (forall other, other <> subject ->
        App.histories s' (App.subjectKey other)
        = App.histories prev (App.subjectKey other))
  /\ match out with
     | Returned t =>
         App.histories s' key
         = Some (App.messagesOf (App.histories prev) key
                 ++ [App.botMessage t now])%list
     | Thrown e =>
         if App.rateLimitSignal e
         then App.histories s' key = App.histories prev key
              /\ App.limitResetTime s' = Some (now + 60000)%Z
         else App.histories s' key
              = Some (App.messagesOf (App.histories prev) key
                      ++ [App.errorMessage now])%list
              /\ App.limitResetTime s' = App.limitResetTime prev
     end.
Proof.
  intros s' key. unfold s'.
  assert (Hother : forall other v, other <> subject ->
            App.withKey (App.histories prev) key v (App.subjectKey other)
            = App.histories prev (App.subjectKey other)).
  { intros other v Hne. apply withKey_other. intros E.
    apply Hne. now apply subjectKey_inj. }
  destruct out as [t|e]; cbn [App.finishSend fst];
    [|destruct (App.rateLimitSignal e)];
    cbn [App.setIsLoading App.setHistories App.setLimitResetTime
         App.isLoading App.activeSubject App.thinkingLevel App.useSearch
         App.histories App.limitResetTime];
    (repeat (split; [reflexivity|])); fold key; unfold App.appendTo.
  - split; [intros other Hne; now apply Hother|].
    unfold App.withKey. now rewrite String.eqb_refl.
  - reflexivity.
  - split; [intros other Hne; now apply Hother|].
    unfold App.withKey. rewrite String.eqb_refl. now split.
Qed.

(** ** Chat bubbles, the input bar and the popup *)

Lemma fullText_single t now' role' err :
  Chat.fullText {| role := role';
                   parts := [ {| text := Some t; inlineData := None |} ];
                   timestamp := now'; isError := err |} = t.
Proof. unfold Chat.fullText. simpl. now destruct t. Qed.

(** X15: the text that Copy and Share take from a bubble is the text the
    message was made from: the answer for a message of the model (for the
    error message, its fixed sentence) and the typed text for a message of
    the user, with or without image.  The toolbar is shown for every answer
    of the service, and never for a message of the user. *)
Theorem fullText_round_trip t text image now r :
  Chat.fullText (App.botMessage t now) = t
  /\ Chat.fullText (App.errorMessage now) = App.connectionUnstable
  /\ Chat.fullText (App.userMessage text image now) = text
  /\ Chat.toolbarShown (App.botMessage (renderResponse r) now) = true
  /\ Chat.toolbarShown (App.botMessage configMessage now) = true
  /\ Chat.toolbarShown (App.userMessage text image now) = false.
Proof.
  split; [apply fullText_single|]. split; [apply fullText_single|].
  split; [|split; [|split; reflexivity]].
  - unfold Chat.fullText. rewrite userMessage_parts.
    destruct image, text; reflexivity.
  - unfold Chat.toolbarShown. cbn [role App.botMessage].
    unfold App.botMessage. rewrite fullText_single.
    apply renderResponse_truthy.
Qed.

Lemma prefix_comma c t :
  String.prefix "," (String c t) = Ascii.eqb c ","%char.
Proof.
  change (String.prefix "," (String c t))
    with (match ascii_dec ","%char c with
          | left _ => String.prefix "" t
          | right _ => false
          end).
  destruct (ascii_dec ","%char c) as [<-|Hne].
  - now destruct t.
  - symmetry. apply Ascii.eqb_neq. congruence.
Qed.

Lemma includes_comma_app a b :
  JS.includes "," (a ++ b) = JS.includes "," a || JS.includes "," b.
Proof.
  induction a as [|c a IH].
  - simpl. destruct b; reflexivity.
  - change (String c a ++ b) with (String c (a ++ b)).
    cbn [JS.includes]. rewrite !prefix_comma, IH. now rewrite orb_assoc.
Qed.

Lemma splitComma_plain s :
  JS.includes "," s = false -> Input.splitComma s = [s].
Proof.
  induction s as [|c s IH]; [reflexivity|].
  cbn [JS.includes Input.splitComma]. rewrite prefix_comma.
  intros H. apply orb_false_iff in H. destruct H as [Hc Hs].
  rewrite Hc, (IH Hs). reflexivity.
Qed.

Lemma splitComma_at_comma a b :
  JS.includes "," a = false ->
  Input.splitComma (a ++ "," ++ b) = a :: Input.splitComma b.
Proof.
  induction a as [|c a IH]; [reflexivity|].
  change (String c a ++ "," ++ b) with (String c (a ++ "," ++ b)).
  cbn [JS.includes Input.splitComma]. rewrite prefix_comma.
  intros H. apply orb_false_iff in H. destruct H as [Hc Hs].
  rewrite Hc, (IH Hs). reflexivity.
Qed.

(** X16: the data URL a chat bubble builds for a stored image and the
    extraction the input bar applies to a data URL are inverse to each
    other: when neither the MIME type nor the data contains a comma, the
    second piece of the URL split at its commas is the stored data.  A
    string without comma has no second piece. *)
Theorem base64Data_of_imageSrc d :
  JS.includes "," (mimeType d) = false ->
  JS.includes "," (data d) = false ->
  Input.base64Data (Chat.imageSrc d) = Some (data d)
  /\ Input.base64Data (mimeType d) = None.
Proof.
  intros Hm Hd. unfold Input.base64Data, Chat.imageSrc. split.
  - replace ("data:" ++ mimeType d ++ ";base64," ++ data d)
      with (("data:" ++ mimeType d ++ ";base64") ++ "," ++ data d)
      by (simpl; rewrite !append_assoc; reflexivity).
    rewrite splitComma_at_comma, (splitComma_plain _ Hd); [reflexivity|].
    change ("data:" ++ mimeType d ++ ";base64")
      with ("data:" ++ (mimeType d ++ ";base64")).
    rewrite !includes_comma_app, Hm. reflexivity.
  - now rewrite (splitComma_plain _ Hm).
Qed.

Lemma base64Data_of_imageSrc_witness :
  Input.base64Data (Chat.imageSrc sampleImage) = Some "QUJD"
  /\ Input.base64Data (mimeType sampleImage) = None.
Proof.
  apply (base64Data_of_imageSrc sampleImage); reflexivity.
Defined.

Lemma remaining_ready resetTime now :
  (Popup.remaining resetTime now <= 0 <-> resetTime <= now)%Z.
Proof.
  unfold Popup.remaining.
  pose proof (Z.div_mod (- (resetTime - now)) 1000 ltac:(lia)) as E.
  pose proof (Z.mod_pos_bound (- (resetTime - now)) 1000 ltac:(lia)) as B.
  lia.
Qed.

Lemma remaining_bound resetTime now :
  (resetTime - 60000 <= now -> Popup.remaining resetTime now <= 60)%Z.
Proof.
  unfold Popup.remaining.
  pose proof (Z.div_mod (- (resetTime - now)) 1000 ltac:(lia)) as E.
  pose proof (Z.mod_pos_bound (- (resetTime - now)) 1000 ltac:(lia)) as B.
  lia.
Qed.

Lemma last_cons_default (l : list Z) : forall t d,
  last (t :: l) d = last l t.
Proof.
  induction l as [|u l IH]; intros t d; [reflexivity|].
  change (last (t :: u :: l) d) with (last (u :: l) d).
  now rewrite !IH.
Qed.

(** What the popup's state knows, [L] being the time of its last refresh. *)
Lemma popup_invariant resetTime ticks : forall L st,
  (Popup.timerRunning st = true ->
   Popup.timeLeft st = Popup.remaining resetTime L) ->
  (Popup.timerRunning st = false ->
   (Popup.timeLeft st <= 0)%Z /\ (resetTime <= L)%Z) ->
  Popup.ascending L ticks ->
  let st' := fold_left (fun st now => Popup.tick resetTime now st) ticks st in
  let L' := last ticks L in
  (Popup.timerRunning st' = true ->
   Popup.timeLeft st' = Popup.remaining resetTime L')
  /\ (Popup.timerRunning st' = false ->
      (Popup.timeLeft st' <= 0)%Z /\ (resetTime <= L')%Z)
  /\ (L <= L')%Z.
Proof.
  induction ticks as [|t ticks IH]; intros L st Hrun Hstop Hasc.
  - simpl. split; [assumption | split; [assumption | lia]].
  - destruct Hasc as [Hle Hasc].
    pose proof (last_cons_default ticks t L) as Hlast.
    cbv zeta. rewrite Hlast. cbn [fold_left].
    destruct (IH t (Popup.tick resetTime t st)) as (H1 & H2 & H3);
      [| | assumption | split; [exact H1 | split; [exact H2 | lia]]].
    + unfold Popup.tick. destruct (Popup.timerRunning st) eqn:Er;
        cbn [Popup.timerRunning Popup.timeLeft]; [reflexivity|].
      intros Hc. congruence.
    + unfold Popup.tick. destruct (Popup.timerRunning st) eqn:Er;
        cbn [Popup.timerRunning Popup.timeLeft].
      * intros Hc. apply negb_false_iff, Z.leb_le in Hc.
        split; [exact Hc | now apply remaining_ready].
      * intros _. destruct (Hstop eq_refl) as [Hz Hr]. split; lia.
Qed.

(** X17: the popup shown for the reset time that [handleSend] sets 60000 ms
    after the failure at [t0].  Its [timeLeft] is computed when it is
    mounted and again at every callback of its timer, until one of them finds
    the time used up and clears the timer.  When these time stamps do not go
    back and the popup is mounted at [t0] or later, it is ready (its button
    enabled, showing 0) exactly when its last refresh was at or after the
    reset time, so never before the reset time; until then it shows the
    seconds left at the last refresh, between 1 and 60.  Mounted at [t0] it
    starts at 60. *)
Theorem popup_countdown (t0 mountTime : Z) (ticks : list Z) :
  let resetTime := (t0 + 60000)%Z in
  (t0 <= mountTime)%Z ->
  Popup.ascending mountTime ticks ->
  let st := Popup.after resetTime mountTime ticks in
  let refreshed := last ticks mountTime in
  (Popup.isReady st = true <-> (resetTime <= refreshed)%Z)
  /\ (Popup.isReady st = true -> Popup.shown st = 0%Z)
  /\ (Popup.isReady st = false ->
      Popup.shown st = Popup.remaining resetTime refreshed
      /\ (1 <= Popup.shown st <= 60)%Z)
  /\ Popup.shown (Popup.mount resetTime t0) = 60%Z.
Proof.
  intros resetTime Hm Hasc st refreshed.
  destruct (popup_invariant resetTime ticks mountTime
              (Popup.mount resetTime mountTime))
    as (Hrun & Hstop & Hle); [reflexivity | discriminate | assumption |].
  fold (Popup.after resetTime mountTime ticks) in Hrun, Hstop.
  fold st in Hrun, Hstop. fold refreshed in Hrun, Hstop, Hle.
  assert (Hready : Popup.isReady st = true <-> (resetTime <= refreshed)%Z).
  { unfold Popup.isReady. rewrite Z.leb_le.
    destruct (Popup.timerRunning st) eqn:Er.
    - rewrite (Hrun eq_refl). apply remaining_ready.
    - destruct (Hstop eq_refl) as [Hz Hr]. split; intros _; assumption. }
  split; [exact Hready|]. split; [|split].
  - intros H. unfold Popup.shown. now rewrite H.
  - intros H. unfold Popup.shown. rewrite H.
    assert (Er : Popup.timerRunning st = true).
    { destruct (Popup.timerRunning st) eqn:Er; [reflexivity|].
      destruct (Hstop eq_refl) as [Hz _].
      unfold Popup.isReady in H. apply Z.leb_gt in H. lia. }
    rewrite (Hrun Er). split; [reflexivity|].
    unfold Popup.isReady in H. apply Z.leb_gt in H. rewrite (Hrun Er) in H.
    pose proof (remaining_bound resetTime refreshed) as Hb.
    unfold resetTime in *. lia.
  - unfold Popup.shown, Popup.isReady, Popup.mount, Popup.remaining, resetTime.
    cbn [Popup.timeLeft].
    replace (- (t0 + 60000 - t0))%Z with (-60000)%Z by lia. reflexivity.
Qed.

Lemma popup_countdown_witness :
  Popup.isReady
    (Popup.after (sampleFailureTime + 60000) sampleMountTime sampleTicks)
  = true.
Proof.
  apply (proj1 (popup_countdown sampleFailureTime sampleMountTime sampleTicks
                  ltac:(unfold sampleFailureTime, sampleMountTime; lia)
                  ltac:(unfold sampleMountTime, sampleTicks; simpl; lia))).
  unfold sampleFailureTime, sampleMountTime, sampleTicks. simpl. lia.
Defined.

(** ** The two copies of the service *)

Lemma newSet_nil_iff l : JS.newSet l = [] <-> l = [].
Proof.
  split; [|now intros ->].
  destruct l as [|a l]; [reflexivity|]. intros E. exfalso.
  revert E. now apply newSet_nonempty.
Qed.

Lemma renderResponse_suffix r :
  exists suffix,
    renderResponse r = JS.orElse (resp_text r) fallbackText ++ suffix
    /\ Single.renderResponse r
       = JS.orElse (resp_text r) Single.fallbackText ++ suffix.
Proof.
  assert (Hnil : forall t : string, t = t ++ "").
  { induction t as [|c t IH]; simpl; [reflexivity | now rewrite <- IH]. }
  unfold renderResponse, Single.renderResponse. cbv zeta.
  destruct (groundingChunksOf r) as [chunks|]; [|exists ""; split; apply Hnil].
  destruct (sourcesOf chunks) as [|x l] eqn:Es.
  - exists "". simpl. destruct (0 <? List.length chunks)%nat; split; apply Hnil.
  - assert (Hc : (0 <? List.length chunks)%nat = true).
    { destruct chunks; [discriminate Es | reflexivity]. }
    rewrite Hc.
    destruct (JS.newSet (x :: l)) as [|y u] eqn:Eu;
      [apply (proj1 (newSet_nil_iff _)) in Eu; discriminate Eu|].
    cbn [List.length Nat.ltb Nat.leb]. eexists. split; reflexivity.
Qed.

(** X18: the single-file copy of the service translates every history to
    the same contents as the service, and renders every response that has a
    non-empty text to the same string, Sources section included; for a
    response without text the two differ in the fallback sentence only. *)
Theorem single_copy_renders_alike history r :
  Single.contentsOf history = mapMessagesToContent history
  /\ (forall t, resp_text r = Some t -> t <> "" ->
        Single.renderResponse r = renderResponse r)
  /\ exists suffix,
       renderResponse r = JS.orElse (resp_text r) fallbackText ++ suffix
       /\ Single.renderResponse r
          = JS.orElse (resp_text r) "No response generated." ++ suffix.
Proof.
  split; [|split].
  - unfold Single.contentsOf, mapMessagesToContent. apply map_ext.
    intros msg. f_equal. apply map_ext. intros p. unfold mapPart.
    destruct (inlineData p) as [[mt dt]|]; reflexivity.
  - intros t Ht Hne. destruct (renderResponse_suffix r) as (suffix & E1 & E2).
    rewrite E1, E2, Ht. apply truthy_nonempty in Hne. simpl. now rewrite Hne.
  - apply renderResponse_suffix.
Qed.

Lemma single_isRateLimit_retryable e :
  Single.isRateLimit e = true -> retryable e = true.
Proof.
  unfold Single.isRateLimit. destruct (message e) as [m|] eqn:Hm; [|discriminate].
  rewrite orb_true_iff. intros [H|H]; apply retryable_iff;
    [exists "429" | exists "503"]; (split; [simpl; tauto|]);
    rewrite (errorMessageOf_Some e m Hm);
    [apply (includes_lower "429" m H) | apply (includes_lower "503" m H)].
Qed.

(** X19: with an API key the single-file copy sends exactly one request and
    never waits.  Every error it reports as RATE_LIMIT is one the service
    would retry; an error the service treats as fatal is thrown unchanged by
    both, after one request each. *)
Theorem single_copy_fails_alike SYSTEM_INSTRUCTIONS SYSTEM_INSTRUCTIONS'
    provider apiKey history subject thinking search :
  keyMissing apiKey = false ->
  let req := initialRequest SYSTEM_INSTRUCTIONS history subject thinking search in
  let req' := Single.requestOf SYSTEM_INSTRUCTIONS' history subject thinking
                               search in
  (exists out,
     Single.generateResponse SYSTEM_INSTRUCTIONS' provider apiKey history
                             subject thinking search []
     = (out, [Call req']))
  /\ (forall e, Single.isRateLimit e = true -> retryable e = true)
  /\ (forall e,
        provider 0%nat req = inr e -> provider 0%nat req' = inr e ->
        retryable e = false ->
        generateResponse SYSTEM_INSTRUCTIONS provider apiKey history subject
                         thinking search []
        = (Some (Thrown e), [Call req; LogError e])
        /\ Single.generateResponse SYSTEM_INSTRUCTIONS' provider apiKey
                                   history subject thinking search []
           = (Thrown e, [Call req'])).
Proof.
  intros Hk req req'. split; [|split].
  - unfold Single.generateResponse, bind, generateContent, ret. rewrite Hk.
    fold req'. cbn [callsOf flat_map List.length app].
    destruct (provider 0%nat req') as [r|e]; [eexists; reflexivity|].
    destruct (Single.isRateLimit e); eexists; reflexivity.
  - apply single_isRateLimit_retryable.
  - intros e Ha Ha' He. split; [now apply first_fatal|].
    unfold Single.generateResponse, bind, generateContent, ret. rewrite Hk.
    fold req'. cbn [callsOf flat_map List.length app]. rewrite Ha'.
    destruct (Single.isRateLimit e) eqn:Hs; [|reflexivity].
    apply single_isRateLimit_retryable in Hs. congruence.
Qed.

Lemma single_copy_fails_alike_witness :
  generateResponse sampleInstructions providerMalformed (Some "key")
                   sampleHistory MATH none false []
  = (Some (Thrown error400),
     [Call (initialRequest sampleInstructions sampleHistory MATH none false);
      LogError error400])
  /\ Single.generateResponse sampleInstructions providerMalformed (Some "key")
                             sampleHistory MATH none false []
     = (Thrown error400,
        [Call (Single.requestOf sampleInstructions sampleHistory MATH none
                                false)]).
Proof.
  apply (proj2 (proj2 (single_copy_fails_alike sampleInstructions
                         sampleInstructions providerMalformed (Some "key")
                         sampleHistory MATH none false eq_refl))
           error400);
    reflexivity.
Defined.

(** X20: the input bar and the chat screen guard a turn alike.  The input
    bar calls [onSend] exactly for the turns that [handleSend] of the chat
    screen, seeing the same loading flag, accepts; it passes the typed text
    and the image without its preview; and it clears its text and image
    exactly when it passes the turn on. *)
Theorem input_bar_forwards_accepted_turns trim (s : App.State)
    (st : Input.State) :
  let image :=
    match Input.selectedImage st with
    | Some i => Some {| mimeType := Input.imageMimeType i;
                        data := Input.imageData i |}
    | None => None
    end in
  if App.ignored trim s (Input.text st) image
  then Input.handleSend trim (App.isLoading s) st = (None, st)
  else Input.handleSend trim (App.isLoading s) st
       = (Some (Input.text st, image),
          {| Input.text := ""; Input.selectedImage := None |}).
Proof.
  intros image. unfold App.ignored, Input.handleSend, image.
  destruct (Input.selectedImage st);
    destruct (negb (JS.truthy (trim (Input.text st))));
    destruct (App.isLoading s); reflexivity.
Qed.

(** ** What of the history reaches the provider *)

Lemma mapMessagesToContent_roles_parts h1 : forall h2,
  map (fun m => (role m, parts m)) h1 = map (fun m => (role m, parts m)) h2 ->
  mapMessagesToContent h1 = mapMessagesToContent h2.
Proof.
  unfold mapMessagesToContent.
  induction h1 as [|m h1 IH]; intros [|m' h2] E; try discriminate E;
    [reflexivity|].
  cbn [map] in E |- *. injection E as Er Ep E.
  now rewrite Er, Ep, (IH h2 E).
Qed.

(** X21: a call of [generateResponse] depends on the history through the
    roles and the parts of its messages only: two histories that differ in
    time stamps or error flags give the same requests and the same outcome.
    In particular a message flagged as an error is sent to the provider like
    any other turn of the model. *)
Theorem generateResponse_ignores_stamps SYSTEM_INSTRUCTIONS provider apiKey
    h1 h2 currentSubject thinkingLevel useSearch :
  map (fun m => (role m, parts m)) h1 = map (fun m => (role m, parts m)) h2 ->
  generateResponse SYSTEM_INSTRUCTIONS provider apiKey h1 currentSubject
                   thinkingLevel useSearch []
  = generateResponse SYSTEM_INSTRUCTIONS provider apiKey h2 currentSubject
                     thinkingLevel useSearch [].
Proof.
  intros E. unfold generateResponse, generateResponseFuel.
  now rewrite (mapMessagesToContent_roles_parts h1 h2 E).
Qed.

Lemma generateResponse_ignores_stamps_witness :
  generateResponse sampleInstructions providerHiccup (Some "key")
                   wellFormedHistory MATH deep true []
  = generateResponse sampleInstructions providerHiccup (Some "key")
                     wellFormedHistoryLater MATH deep true [].
Proof.
  apply (generateResponse_ignores_stamps sampleInstructions providerHiccup
           (Some "key") wellFormedHistory wellFormedHistoryLater MATH deep true).
  reflexivity.
Defined.
